(** * create_github_labels.py: the label synchroniser, embedded and verified

    The script deletes every label of a GitHub repository and then
    creates a fixed catalog of labels, through three kinds of HTTP
    request, printing one status line per deletion and per creation.

    The embedding follows the script function by function:
    - Python values met by the script (JSON scalars, dicts, bytes and
      the text an f-string inserts for them);
    - the outside world: the keyboard, the HTTP transport and the
      console, threaded through a state-and-exception monad;
    - [delete_existing_labels], [create_labels], [labels_to_create] and
      the top-level statements as [main].
    The vocabulary of the statements follows, then the theorems: what
    each phase sends and prints, request by request, and the properties
    of the script as a whole. *)

From Stdlib Require Import Strings.Byte Strings.Ascii Strings.String.
From stdpp Require Import base decidable option numbers list strings pretty gmap.

Local Open Scope Z_scope.

(** ** Python values *)

Module Py.

(** Scalars found in the JSON objects the script handles. The catalog
    holds only strings; a label object answered by the API also holds an
    integer id, a boolean flag and possibly a null description. *)
Inductive value : Type :=
  | VNone
  | VBool (b : bool)
  | VInt (n : Z)
  | VStr (s : string).

#[global] Instance value_eq_dec : EqDecision value.
Proof. solve_decision. Defined.

(** [str(v)], which is what an f-string field [{v}] inserts. *)
Definition str (v : value) : string :=
  match v with
  | VNone => "None"
  | VBool true => "True"
  | VBool false => "False"
  | VInt n => pretty n
  | VStr s => s
  end.

(** A [bytes] object, such as [response.content]. *)
Definition bytes : Type := list byte.

Definition hexdigits : string := "0123456789abcdef".

Definition hexdigit (n : N) : ascii :=
  match String.get (N.to_nat n) hexdigits with
  | Some c => c
  | None => "0"%char
  end.

Definition quote1 : byte := x27.     (* the single quote *)
Definition quote2 : byte := x22.     (* the double quote *)
Definition backslash : byte := x5c.

Definition char (c : byte) : string := String (ascii_of_byte c) EmptyString.

(** One byte of the body as [repr] writes it between the quotes. *)
Definition repr_byte (quote c : byte) : string :=
  if Byte.eqb c quote || Byte.eqb c backslash then char backslash +:+ char c
  else if Byte.eqb c x09 then char backslash +:+ "t"
  else if Byte.eqb c x0a then char backslash +:+ "n"
  else if Byte.eqb c x0d then char backslash +:+ "r"
  else if (Byte.to_N c <? 32)%N || (127 <=? Byte.to_N c)%N then
    char backslash +:+ "x"
      +:+ String (hexdigit (N.shiftr (N.land (Byte.to_N c) 240) 4))
            (String (hexdigit (N.land (Byte.to_N c) 15)) EmptyString)
  else char c.

Definition has_byte (c : byte) (b : bytes) : bool := existsb (Byte.eqb c) b.

(** [repr(b)] for a bytes object: the text an f-string inserts for
    [{response.content}]. The body is written as a bytes literal: a [b]
    prefix, single quotes unless the body holds a single quote and no
    double quote, and escapes for the quote, the backslash, tab, line
    feed, carriage return and every byte outside printable ASCII. *)
Definition repr (b : bytes) : string :=
  let quote := if has_byte quote1 b && negb (has_byte quote2 b)
               then quote2 else quote1 in
  "b" +:+ char quote
    +:+ foldr (λ c rest, repr_byte quote c +:+ rest) (char quote) b.

(** A dict with string keys. *)
Abbreviation dict := (gmap string value).

Inductive exn : Type :=
  | EOFError
  | ConnectionError
  | JSONDecodeError
  | KeyError (key : string).

End Py.

Import Py.

(** ** The outside world *)

Module Http.

Inductive verb : Type := GET | DELETE | POST.

#[global] Instance verb_eq_dec : EqDecision verb.
Proof. solve_decision. Defined.

(** A call of [requests.get], [requests.delete] or [requests.post]:
    the URL, the [headers=] dict and, for [post], the [json=] dict. *)
Record request : Type := Request {
  method : verb;
  url : string;
  headers : gmap string string;
  json : option dict;
}.

#[global] Instance request_eq_dec : EqDecision request.
Proof. solve_decision. Defined.

(** What the script reads of a response: [status_code], [content] and
    the result of [json()]. [decoded] is [None] when the body does not
    decode to a JSON array of flat objects, in which case [json()]
    raises. *)
Record response : Type := Response {
  status_code : Z;
  content : bytes;
  decoded : option (list dict);
}.

End Http.

Import Http.

(** What appears on the terminal: the prompts of [input] and [getpass]
    and the lines written by [print]. *)
Inductive event : Type :=
  | Prompt (text : string)
  | Line (text : string).

#[global] Instance event_eq_dec : EqDecision event.
Proof. solve_decision. Defined.

(** - [keyboard]: the lines the operator will type;
    - [wire]: the responses the transport will deliver, in order; when
      none is left the transport fails (connection refused, reset...).
      A run only sees the sequence of responses it receives, so every
      behaviour of the server is some wire;
    - [sent]: the requests made so far, oldest first;
    - [console]: the terminal so far, oldest first. *)
Record world : Type := World {
  keyboard : list string;
  wire : list response;
  sent : list request;
  console : list event;
}.

(** A statement runs in a world and either completes with a value or
    raises; the world reached is kept in both cases, since an uncaught
    exception ends the script with its effects done. The traceback
    that Python then writes to the error stream is not part of the
    console. *)
Definition io (A : Type) : Type := world → (exn + A) * world.

#[global] Instance io_ret : MRet io := λ A a w, (inr a, w).

#[global] Instance io_bind : MBind io := λ A B f m w,
  match m w with
  | (inr a, w') => f a w'
  | (inl e, w') => (inl e, w')
  end.

Definition raise {A : Type} (e : exn) : io A := λ w, (inl e, w).

Definition print (line : string) : io unit := λ w,
  (inr (), World (keyboard w) (wire w) (sent w) (console w ++ [Line line])).

(** [input(prompt)] and [getpass(prompt)] both show the prompt and read
    one line; [getpass] only differs in that the terminal does not echo
    what is typed. *)
Definition input (prompt : string) : io string := λ w,
  match keyboard w with
  | typed :: rest =>
      (inr typed, World rest (wire w) (sent w) (console w ++ [Prompt prompt]))
  | [] =>
      (inl EOFError, World [] (wire w) (sent w) (console w ++ [Prompt prompt]))
  end.

Definition getpass (prompt : string) : io string := input prompt.

(** The transport: the request is recorded, then answered by the next
    response on the wire, or fails. *)
Definition send (rq : request) : io response := λ w,
  match wire w with
  | r :: rest => (inr r, World (keyboard w) rest (sent w ++ [rq]) (console w))
  | [] => (inl ConnectionError, World (keyboard w) [] (sent w ++ [rq]) (console w))
  end.

Definition requests_get (url : string) (headers : gmap string string) : io response :=
  send (Request GET url headers None).

Definition requests_delete (url : string) (headers : gmap string string) : io response :=
  send (Request DELETE url headers None).

Definition requests_post (url : string) (headers : gmap string string)
    (json : dict) : io response :=
  send (Request POST url headers (Some json)).

(** [response.json()] *)
Definition response_json (r : response) : io (list dict) :=
  match decoded r with
  | Some v => mret v
  | None => raise JSONDecodeError
  end.

(** [d[key]] *)
Definition getitem (d : dict) (key : string) : io value :=
  match d !! key with
  | Some v => mret v
  | None => raise (KeyError key)
  end.

(** [for x in xs: body] *)
Fixpoint for_each {A : Type} (xs : list A) (body : A → io unit) : io unit :=
  match xs with
  | [] => mret ()
  | x :: rest => body x ;; for_each rest body
  end.

(** ** The script *)

Definition delete_existing_labels (api_url repo_owner repo_name : string)
    (headers : gmap string string) : io unit :=
  response ← requests_get
    (api_url +:+ "/repos/" +:+ repo_owner +:+ "/" +:+ repo_name +:+ "/labels")
    headers;
  if decide (status_code response = 200) then
    existing_labels ← response_json response;
    for_each existing_labels (λ label,
      name ← getitem label "name";
      delete_response ← requests_delete
        (api_url +:+ "/repos/" +:+ repo_owner +:+ "/" +:+ repo_name
           +:+ "/labels/" +:+ str name)
        headers;
      if decide (status_code delete_response = 204) then
        name ← getitem label "name";
        print ("Successfully deleted label: " +:+ str name)
      else
        name ← getitem label "name";
        print ("Failed to delete label: " +:+ str name +:+ " - "
                 +:+ repr (content delete_response)))
  else
    mret ().

Definition create_labels (api_url repo_owner repo_name : string)
    (headers : gmap string string) (labels_to_create : list dict) : io unit :=
  for_each labels_to_create (λ label,
    response ← requests_post
      (api_url +:+ "/repos/" +:+ repo_owner +:+ "/" +:+ repo_name +:+ "/labels")
      headers
      label;
    if decide (status_code response = 201) then
      name ← getitem label "name";
      print ("Successfully created label: " +:+ str name)
    else
      name ← getitem label "name";
      print ("Failed to create label: " +:+ str name +:+ " - "
               +:+ repr (content response))).

(** The list of labels to create. *)
Definition labels_to_create : list dict := [
  {[ "name" := VStr "bug";
     "color" := VStr "d73a4a";
     "description" := VStr "Indicates a problem that impairs or prevents the functions of the product" ]};
  {[ "name" := VStr "dependencies";
     "color" := VStr "0366d6";
     "description" := VStr "Concerns outdated, broken, or problematic dependencies" ]};
  {[ "name" := VStr "documentation";
     "color" := VStr "0075ca";
     "description" := VStr "Relates to improvements or additions to documentation" ]};
  {[ "name" := VStr "duplicate";
     "color" := VStr "cfd3d7";
     "description" := VStr "Signals an issue that has already been reported, often with a reference to the original" ]};
  {[ "name" := VStr "enhancement";
     "color" := VStr "a2eeef";
     "description" := VStr "Suggests a new feature or improvement to existing functionality" ]};
  {[ "name" := VStr "environment";
     "color" := VStr "f9d0c4";
     "description" := VStr "Involves issues related to the project's development, testing, or production environment" ]};
  {[ "name" := VStr "good first issue";
     "color" := VStr "7057ff";
     "description" := VStr "Suitable for first-time contributors, these issues are a great way to get involved" ]};
  {[ "name" := VStr "help wanted";
     "color" := VStr "008672";
     "description" := VStr "Requests assistance from the community or team members for an issue or initiative" ]};
  {[ "name" := VStr "invalid";
     "color" := VStr "e4e669";
     "description" := VStr "Marks an issue that is no longer relevant or that has been filed incorrectly" ]};
  {[ "name" := VStr "performance";
     "color" := VStr "fbca04";
     "description" := VStr "Highlights areas of the codebase that could be optimized for speed and efficiency" ]};
  {[ "name" := VStr "question";
     "color" := VStr "d876e3";
     "description" := VStr "Seeks further information or clarification on a topic or issue" ]};
  {[ "name" := VStr "refactor";
     "color" := VStr "1d76db";
     "description" := VStr "Suggests improvements for code organization or architecture without altering behavior" ]};
  {[ "name" := VStr "security";
     "color" := VStr "b60205";
     "description" := VStr "Concerns or reports related to security vulnerabilities" ]};
  {[ "name" := VStr "test-case";
     "color" := VStr "5319e7";
     "description" := VStr "Indicates missing tests or proposes new ones for better coverage" ]};
  {[ "name" := VStr "user-story";
     "color" := VStr "c2e0c6";
     "description" := VStr "Describes a software feature from an end-user perspective, focusing on their needs and experiences" ]};
  {[ "name" := VStr "violation";
     "color" := VStr "e11d21";
     "description" := VStr "Pertains to vulnerabilities that could impact the security of the project" ]};
  {[ "name" := VStr "wontfix";
     "color" := VStr "000000";
     "description" := VStr "Acknowledges an issue that the project has decided not to address at the present time" ]}
].

(** The top-level statements, in the order they are executed when the
    file is run as a script. *)
Definition main : io unit :=
  let api_url := "https://api.github.com" in
  repo_owner ← input "Enter your GitHub username: ";
  repo_name ← input "Enter your repository name: ";
  token ← getpass "Enter your GitHub token: ";
  let headers : gmap string string :=
    {[ "Authorization" := "token " +:+ token;
       "Accept" := "application/vnd.github.v3+json" ]} in
  delete_existing_labels api_url repo_owner repo_name headers ;;
  create_labels api_url repo_owner repo_name headers labels_to_create.

(** ** Vocabulary of the statements

    Nothing below is part of the script: these are the names the
    theorems use for its requests, its lines and its runs. *)

(** The requests of the script, and the line it prints for a response. *)
Definition listing_request (api_url repo_owner repo_name : string)
    (headers : gmap string string) : request :=
  Request GET
    (api_url +:+ "/repos/" +:+ repo_owner +:+ "/" +:+ repo_name +:+ "/labels")
    headers None.

Definition delete_request (api_url repo_owner repo_name : string)
    (headers : gmap string string) (name : value) : request :=
  Request DELETE
    (api_url +:+ "/repos/" +:+ repo_owner +:+ "/" +:+ repo_name
       +:+ "/labels/" +:+ str name)
    headers None.

Definition create_request (api_url repo_owner repo_name : string)
    (headers : gmap string string) (label : dict) : request :=
  Request POST
    (api_url +:+ "/repos/" +:+ repo_owner +:+ "/" +:+ repo_name +:+ "/labels")
    headers (Some label).

Definition delete_report (name : value) (r : response) : event :=
  Line (if decide (status_code r = 204)
        then "Successfully deleted label: " +:+ str name
        else "Failed to delete label: " +:+ str name +:+ " - " +:+ repr (content r)).

Definition create_report (name : value) (r : response) : event :=
  Line (if decide (status_code r = 201)
        then "Successfully created label: " +:+ str name
        else "Failed to create label: " +:+ str name +:+ " - " +:+ repr (content r)).

(** [named labels names]: every label object has a ["name"] entry, and
    [names] lists them in order. *)
Definition named (labels : list dict) (names : list value) : Prop :=
  Forall2 (λ (label : dict) name, label !! "name" = Some name) labels names.

(** The loop of [delete_existing_labels], once the listing is decoded. *)
Definition delete_each (api_url repo_owner repo_name : string)
    (headers : gmap string string) (labels : list dict) : io unit :=
  for_each labels (λ label,
    name ← getitem label "name";
    delete_response ← requests_delete
      (api_url +:+ "/repos/" +:+ repo_owner +:+ "/" +:+ repo_name
         +:+ "/labels/" +:+ str name)
      headers;
    if decide (status_code delete_response = 204) then
      name ← getitem label "name";
      print ("Successfully deleted label: " +:+ str name)
    else
      name ← getitem label "name";
      print ("Failed to delete label: " +:+ str name +:+ " - "
               +:+ repr (content delete_response))).

(** Reading back a bytes literal as [repr] writes it: [unrepr] undoes
    [repr], which is what makes a printed failure line carry the whole
    response body. *)
Definition unhex (c : ascii) : option N :=
  let n := N_of_ascii c in
  if ((48 <=? n) && (n <=? 57))%N then Some (n - 48)%N
  else if ((97 <=? n) && (n <=? 102))%N then Some (n - 87)%N
  else None.

Fixpoint unrepr_body (quote : byte) (s : string) : option bytes :=
  match s with
  | EmptyString => None
  | String c rest =>
      if Ascii.eqb c (ascii_of_byte backslash) then
        match rest with
        | EmptyString => None
        | String e rest' =>
            if Ascii.eqb e "t" then cons x09 <$> unrepr_body quote rest'
            else if Ascii.eqb e "n" then cons x0a <$> unrepr_body quote rest'
            else if Ascii.eqb e "r" then cons x0d <$> unrepr_body quote rest'
            else if Ascii.eqb e "x" then
              match rest' with
              | String h (String l rest'') =>
                  match unhex h, unhex l with
                  | Some a, Some b =>
                      match Byte.of_N (16 * a + b) with
                      | Some v => cons v <$> unrepr_body quote rest''
                      | None => None
                      end
                  | _, _ => None
                  end
              | _ => None
              end
            else cons (byte_of_ascii e) <$> unrepr_body quote rest'
        end
      else if Ascii.eqb c (ascii_of_byte quote) then
        match rest with
        | EmptyString => Some []
        | String _ _ => None
        end
      else cons (byte_of_ascii c) <$> unrepr_body quote rest
  end.

Definition unrepr (s : string) : option bytes :=
  match s with
  | String "b" (String quote rest) => unrepr_body (byte_of_ascii quote) rest
  | _ => None
  end.

(** [emits P Q m]: whatever the world, [m] only appends to the requests
    sent and to the console, every request it adds satisfies [P] and
    every console event it adds satisfies [Q]. This holds whether [m]
    completes or raises. *)
Definition emits {A : Type} (P : request → Prop) (Q : event → Prop)
    (m : io A) : Prop :=
  ∀ w, ∃ rqs evs,
    sent (m w).2 = sent w ++ rqs ∧ console (m w).2 = console w ++ evs ∧
    Forall P rqs ∧ Forall Q evs.

Definition is_line (ev : event) : Prop := ∃ text, ev = Line text.

(** Two worlds with the same keyboard, wire and console: they may differ
    in the requests sent, which is where the token goes. *)
Definition same_io (w1 w2 : world) : Prop :=
  keyboard w1 = keyboard w2 ∧ wire w1 = wire w2 ∧ console w1 = console w2.

(** Two statements agree when, from worlds with the same keyboard, wire
    and console, they have the same outcome and reach such worlds
    again. *)
Definition agree {A : Type} (m1 m2 : io A) : Prop :=
  ∀ w1 w2, same_io w1 w2 →
    (m1 w1).1 = (m2 w2).1 ∧ same_io (m1 w1).2 (m2 w2).2.

(** The names of the catalog, in order. *)
Definition catalog_names : list value :=
  VStr <$> ["bug"; "dependencies"; "documentation"; "duplicate"; "enhancement";
            "environment"; "good first issue"; "help wanted"; "invalid";
            "performance"; "question"; "refactor"; "security"; "test-case";
            "user-story"; "violation"; "wontfix"].

Definition is_hex_digit (c : ascii) : bool :=
  let n := N_of_ascii c in
  ((48 <=? n) && (n <=? 57) || (97 <=? n) && (n <=? 102) || (65 <=? n) && (n <=? 70))%N.

(** A color as the API takes it: six hexadecimal digits. *)
Definition hex_color (s : string) : Prop :=
  String.length s = 6%nat ∧ Forall (λ c, is_hex_digit c = true) (list_ascii_of_string s).

Definition script_headers (token : string) : gmap string string :=
  {[ "Authorization" := "token " +:+ token;
     "Accept" := "application/vnd.github.v3+json" ]}.

Definition prompts : list event :=
  [Prompt "Enter your GitHub username: ";
   Prompt "Enter your repository name: ";
   Prompt "Enter your GitHub token: "].

(** ** Worlds and responses used as examples *)

Definition octocat_headers : gmap string string :=
  {[ "Authorization" := "token s3cr3t";
     "Accept" := "application/vnd.github.v3+json" ]}.

Definition created : response := Response 201 [] (Some []).

Definition deleted : response := Response 204 [] None.

Definition not_found : response :=
  Response 404 (list_byte_of_string "Not Found") None.

Definition partial_content : response := Response 206 [] (Some []).

Definition forbidden : response :=
  Response 403 (list_byte_of_string "Forbidden") None.

Definition unprocessable : response :=
  Response 422 (list_byte_of_string "Validation Failed: already_exists") None.

(** A server that writes the credentials it was sent into its error
    body. *)
Definition bad_credentials : response :=
  Response 401 (list_byte_of_string "Bad credentials: token s3cr3t") None.

Definition bug_object : dict :=
  {[ "id" := VInt 208045946; "name" := VStr "bug"; "color" := VStr "f29513";
     "default" := VBool true; "description" := VNone ]}.

Definition wontfix_object : dict :=
  {[ "id" := VInt 208045947; "name" := VStr "wontfix"; "color" := VStr "ffffff";
     "default" := VBool true; "description" := VStr "This will not be worked on" ]}.

Definition listed : response :=
  Response 200 (list_byte_of_string "[...]") (Some [bug_object; wontfix_object]).

(** A label object without a ["name"] entry, and a listing that holds
    one between two well-formed objects. *)
Definition nameless_object : dict :=
  {[ "id" := VInt 208045948; "color" := VStr "ededed" ]}.

Definition listed_nameless : response :=
  Response 200 (list_byte_of_string "[...]")
    (Some [bug_object; nameless_object; wontfix_object]).

Definition listed_nothing : response :=
  Response 200 (list_byte_of_string "[]") (Some []).


(** The requests the script makes after the listing: a delete addressed
    by some name, or the creation of one of the labels to create. *)
Definition script_request (api_url repo_owner repo_name : string)
    (headers : gmap string string) (labels : list dict) (rq : request) : Prop :=
  (∃ name, rq = delete_request api_url repo_owner repo_name headers name)
  ∨ (∃ label, label ∈ labels ∧
       rq = create_request api_url repo_owner repo_name headers label).

(** A byte that [repr] writes as itself between single quotes. *)
Definition plain_byte (c : byte) : Prop :=
  (32 ≤ Byte.to_N c)%N ∧ (Byte.to_N c < 127)%N ∧ c ≠ quote1 ∧ c ≠ backslash.

(** Text made of printable ASCII characters only: no control
    character, no line break, nothing beyond 7 bits. *)
Definition printable (s : string) : Prop :=
  Forall (λ ch, (32 ≤ N_of_ascii ch)%N ∧ (N_of_ascii ch < 127)%N)
    (list_ascii_of_string s).

(** ** Running statements *)

Lemma run_bind {A B : Type} (m : io A) (f : A → io B) (w : world) :
  (m ≫= f) w =
  match m w with
  | (inr a, w') => f a w'
  | (inl e, w') => (inl e, w')
  end.
Proof. reflexivity. Qed.

Lemma run_ret {A : Type} (a : A) (w : world) : (mret a : io A) w = (inr a, w).
Proof. reflexivity. Qed.

Lemma run_for_each_nil {A : Type} (body : A → io unit) (w : world) :
  for_each [] body w = (inr (), w).
Proof. reflexivity. Qed.

Lemma run_for_each_cons {A : Type} (x : A) (xs : list A) (body : A → io unit)
    (w : world) :
  for_each (x :: xs) body w =
  match body x w with
  | (inr _, w') => for_each xs body w'
  | (inl e, w') => (inl e, w')
  end.
Proof. reflexivity. Qed.

Lemma run_send_answered (rq : request) (w : world) (r : response)
    (rest : list response) :
  wire w = r :: rest →
  send rq w = (inr r, World (keyboard w) rest (sent w ++ [rq]) (console w)).
Proof. intros Hw. unfold send. by rewrite Hw. Qed.

Lemma run_send_refused (rq : request) (w : world) :
  wire w = [] →
  send rq w =
  (inl ConnectionError, World (keyboard w) [] (sent w ++ [rq]) (console w)).
Proof. intros Hw. unfold send. by rewrite Hw. Qed.

Lemma run_getitem (d : dict) (key : string) (v : value) (w : world) :
  d !! key = Some v → getitem d key w = (inr v, w).
Proof. intros Hd. unfold getitem. by rewrite Hd. Qed.

(** ** What a statement may add to the world *)

Section Emits.
Context (P : request → Prop) (Q : event → Prop).

Lemma emits_ret {A : Type} (a : A) : emits P Q (mret a).
Proof. intros w. exists [], []. by rewrite !app_nil_r. Qed.

Lemma emits_raise {A : Type} (e : exn) : emits P Q (@raise A e).
Proof. intros w. exists [], []. by rewrite !app_nil_r. Qed.

Lemma emits_bind {A B : Type} (m : io A) (f : A → io B) :
  emits P Q m → (∀ a, emits P Q (f a)) → emits P Q (m ≫= f).
Proof.
  intros Hm Hf w. rewrite run_bind.
  destruct (Hm w) as (rqs & evs & Hs & Hc & HP & HQ).
  destruct (m w) as [[e|a] w1]; simpl in *.
  - by exists rqs, evs.
  - destruct (Hf a w1) as (rqs' & evs' & Hs' & Hc' & HP' & HQ').
    exists (rqs ++ rqs'), (evs ++ evs').
    rewrite Hs', Hc', Hs, Hc, !app_assoc.
    split_and!; try done; by apply Forall_app.
Qed.

Lemma emits_print (line : string) : Q (Line line) → emits P Q (print line).
Proof.
  intros HQ w. exists [], [Line line]. rewrite app_nil_r.
  split_and!; try done. by apply Forall_singleton.
Qed.

Lemma emits_input (prompt : string) : Q (Prompt prompt) → emits P Q (input prompt).
Proof.
  intros HQ w. exists [], [Prompt prompt]. rewrite app_nil_r. unfold input.
  destruct (keyboard w); simpl; split_and!; try done; by apply Forall_singleton.
Qed.

Lemma emits_send (rq : request) : P rq → emits P Q (send rq).
Proof.
  intros HP w. exists [rq], []. rewrite app_nil_r. unfold send.
  destruct (wire w); simpl; split_and!; try done; by apply Forall_singleton.
Qed.

Lemma emits_getitem (d : dict) (key : string) : emits P Q (getitem d key).
Proof. unfold getitem. destruct (d !! key); [apply emits_ret | apply emits_raise]. Qed.

Lemma emits_response_json (r : response) : emits P Q (response_json r).
Proof. unfold response_json. destruct (decoded r); [apply emits_ret | apply emits_raise]. Qed.

Lemma emits_for_each {A : Type} (xs : list A) (body : A → io unit) :
  (∀ x, emits P Q (body x)) → emits P Q (for_each xs body).
Proof.
  intros Hbody. induction xs as [|x xs IH]; simpl.
  - apply emits_ret.
  - apply emits_bind; [apply Hbody | intros _; apply IH].
Qed.
End Emits.

Lemma emits_weaken {A : Type} (P P' : request → Prop) (Q Q' : event → Prop)
    (m : io A) :
  (∀ rq, P rq → P' rq) → (∀ ev, Q ev → Q' ev) → emits P Q m → emits P' Q' m.
Proof.
  intros HP HQ Hm w. destruct (Hm w) as (rqs & evs & Hs & Hc & HPs & HQs).
  exists rqs, evs. split_and!; try done; eapply Forall_impl; eauto.
Qed.

Create HintDb emits discriminated.
#[local] Hint Resolve emits_ret emits_raise emits_print emits_input emits_send
  emits_getitem emits_response_json : emits.

Ltac emits_step :=
  first
    [ apply emits_bind; [|intros ?]
    | apply emits_for_each; intros ?
    | match goal with |- emits _ _ (if ?c then _ else _) => destruct c end
    | solve [auto with emits] ].

(** ** The two phases, request by request *)

Lemma named_length (labels : list dict) (names : list value) :
  named labels names → length names = length labels.
Proof. intros H. symmetry. by eapply Forall2_length. Qed.

Lemma named_lookup (labels : list dict) (names : list value) (i : nat)
    (label : dict) :
  named labels names → labels !! i = Some label →
  ∃ name, names !! i = Some name ∧ label !! "name" = Some name.
Proof. intros H Hi. by eapply Forall2_lookup_l in H. Qed.

Lemma world_eta (w : world) :
  World (keyboard w) (wire w) (sent w ++ []) (console w ++ []) = w.
Proof. destruct w; simpl. by rewrite !app_nil_r. Qed.

Lemma outcome_step (n m : nat) :
  (if decide (n ≤ m)%nat then inr () else inl ConnectionError : exn + unit) =
  (if decide (S n ≤ S m)%nat then inr () else inl ConnectionError).
Proof. repeat case_decide; done || lia. Qed.

Section Phases.
Variables api_url repo_owner repo_name : string.
Variable headers : gmap string string.

#[local] Abbreviation listing := (listing_request api_url repo_owner repo_name headers).
#[local] Abbreviation deletion := (delete_request api_url repo_owner repo_name headers).
#[local] Abbreviation creation := (create_request api_url repo_owner repo_name headers).
#[local] Abbreviation purge := (delete_existing_labels api_url repo_owner repo_name headers).
#[local] Abbreviation seed := (create_labels api_url repo_owner repo_name headers).
#[local] Abbreviation delete_each := (delete_each api_url repo_owner repo_name headers).

(** *** The seed phase *)

Lemma seed_nil (w : world) : seed [] w = (inr (), w).
Proof. reflexivity. Qed.

Lemma seed_cons (label : dict) (labels : list dict) (w : world) :
  seed (label :: labels) w =
  match seed [label] w with
  | (inr _, w') => seed labels w'
  | (inl e, w') => (inl e, w')
  end.
Proof.
  unfold seed, create_labels. rewrite !run_for_each_cons.
  match goal with |- context [match ?b with _ => _ end] => destruct b as [[e|[]] w'] end;
    done.
Qed.

Lemma seed_one_refused (label : dict) (w : world) :
  wire w = [] →
  seed [label] w =
  (inl ConnectionError,
   World (keyboard w) [] (sent w ++ [creation label]) (console w)).
Proof.
  intros Hw. unfold seed, create_labels. rewrite run_for_each_cons, run_bind.
  unfold requests_post. by rewrite (run_send_refused _ _ Hw).
Qed.

Lemma seed_one_answered (label : dict) (name : value) (r : response)
    (rest : list response) (w : world) :
  label !! "name" = Some name → wire w = r :: rest →
  seed [label] w =
  (inr (),
   World (keyboard w) rest (sent w ++ [creation label])
     (console w ++ [create_report name r])).
Proof.
  intros Hname Hw. unfold seed, create_labels.
  rewrite run_for_each_cons, run_bind.
  unfold requests_post. rewrite (run_send_answered _ _ _ _ Hw).
  unfold create_report. destruct (decide (status_code r = 201));
    rewrite run_bind, (run_getitem _ _ _ _ Hname); reflexivity.
Qed.

(** The whole seed phase on labels that all have a name: one request
    per label while the transport answers, one line per answer. *)
Lemma seed_run (labels : list dict) (names : list value) :
  named labels names → ∀ w,
  seed labels w =
  (if decide (length labels ≤ length (wire w))%nat
   then inr () else inl ConnectionError,
   World (keyboard w) (drop (length labels) (wire w))
     (sent w ++ map creation (take (S (length (wire w))) labels))
     (console w ++ zip_with create_report names (wire w))).
Proof.
  induction 1 as [|label name labels names Hname _ IH]; intros w.
  - rewrite seed_nil. simpl. by rewrite world_eta.
  - rewrite seed_cons. destruct (wire w) as [|r rest] eqn:Hw.
    + rewrite (seed_one_refused _ _ Hw). simpl. by rewrite app_nil_r.
    + rewrite (seed_one_answered _ _ _ _ _ Hname Hw), IH. simpl.
      rewrite <- !app_assoc. simpl. by rewrite <- outcome_step.
Qed.
(** When the transport answers every request of the phase. *)
Lemma seed_answered (labels : list dict) (names : list value) (w : world) :
  named labels names → (length labels ≤ length (wire w))%nat →
  seed labels w =
  (inr (),
   World (keyboard w) (drop (length labels) (wire w))
     (sent w ++ map creation labels)
     (console w ++ zip_with create_report names (wire w))).
Proof.
  intros Hn Hlen. rewrite (seed_run _ _ Hn).
  rewrite take_ge by lia. by case_decide.
Qed.

(** *** The purge phase *)

Lemma purge_refused (w : world) :
  wire w = [] →
  purge w =
  (inl ConnectionError, World (keyboard w) [] (sent w ++ [listing]) (console w)).
Proof.
  intros Hw. unfold purge, delete_existing_labels, requests_get.
  by rewrite run_bind, (run_send_refused _ _ Hw).
Qed.

Lemma purge_not_listed (r : response) (rest : list response) (w : world) :
  wire w = r :: rest → status_code r ≠ 200 →
  purge w = (inr (), World (keyboard w) rest (sent w ++ [listing]) (console w)).
Proof.
  intros Hw Hr. unfold purge, delete_existing_labels, requests_get.
  rewrite run_bind, (run_send_answered _ _ _ _ Hw). by case_decide.
Qed.

Lemma purge_undecoded (r : response) (rest : list response) (w : world) :
  wire w = r :: rest → status_code r = 200 → decoded r = None →
  purge w =
  (inl JSONDecodeError,
   World (keyboard w) rest (sent w ++ [listing]) (console w)).
Proof.
  intros Hw Hr Hd. unfold purge, delete_existing_labels, requests_get.
  rewrite run_bind, (run_send_answered _ _ _ _ Hw). case_decide; [|done].
  rewrite run_bind. unfold response_json. by rewrite Hd.
Qed.

Lemma purge_listed (r : response) (rest : list response) (labels : list dict)
    (w : world) :
  wire w = r :: rest → status_code r = 200 → decoded r = Some labels →
  purge w =
  delete_each labels (World (keyboard w) rest (sent w ++ [listing]) (console w)).
Proof.
  intros Hw Hr Hd. unfold purge, delete_existing_labels, requests_get.
  rewrite run_bind, (run_send_answered _ _ _ _ Hw). case_decide; [|done].
  rewrite run_bind. unfold response_json. by rewrite Hd.
Qed.

Lemma delete_each_cons (label : dict) (labels : list dict) (w : world) :
  delete_each (label :: labels) w =
  match delete_each [label] w with
  | (inr _, w') => delete_each labels w'
  | (inl e, w') => (inl e, w')
  end.
Proof.
  unfold delete_each. rewrite !run_for_each_cons.
  match goal with |- context [match ?b with _ => _ end] => destruct b as [[e|[]] w'] end;
    done.
Qed.

Lemma delete_one_unnamed (label : dict) (w : world) :
  label !! "name" = None →
  delete_each [label] w = (inl (KeyError "name"), w).
Proof.
  intros Hname. unfold delete_each. rewrite run_for_each_cons, run_bind.
  unfold getitem. by rewrite Hname.
Qed.

Lemma delete_one_refused (label : dict) (name : value) (w : world) :
  label !! "name" = Some name → wire w = [] →
  delete_each [label] w =
  (inl ConnectionError,
   World (keyboard w) [] (sent w ++ [deletion name]) (console w)).
Proof.
  intros Hname Hw. unfold delete_each.
  rewrite run_for_each_cons, run_bind, (run_getitem _ _ _ _ Hname), run_bind.
  unfold requests_delete. by rewrite (run_send_refused _ _ Hw).
Qed.

Lemma delete_one_answered (label : dict) (name : value) (r : response)
    (rest : list response) (w : world) :
  label !! "name" = Some name → wire w = r :: rest →
  delete_each [label] w =
  (inr (),
   World (keyboard w) rest (sent w ++ [deletion name])
     (console w ++ [delete_report name r])).
Proof.
  intros Hname Hw. unfold delete_each.
  rewrite run_for_each_cons, run_bind, (run_getitem _ _ _ _ Hname), run_bind.
  unfold requests_delete. rewrite (run_send_answered _ _ _ _ Hw).
  unfold delete_report. destruct (decide (status_code r = 204));
    rewrite run_bind, (run_getitem _ _ _ _ Hname); reflexivity.
Qed.

(** The loop on label objects that all have a name. *)
Lemma delete_each_run (labels : list dict) (names : list value) :
  named labels names → ∀ w,
  delete_each labels w =
  (if decide (length labels ≤ length (wire w))%nat
   then inr () else inl ConnectionError,
   World (keyboard w) (drop (length labels) (wire w))
     (sent w ++ map deletion (take (S (length (wire w))) names))
     (console w ++ zip_with delete_report names (wire w))).
Proof.
  induction 1 as [|label name labels names Hname _ IH]; intros w.
  - unfold delete_each. rewrite run_for_each_nil. simpl. by rewrite world_eta.
  - rewrite delete_each_cons. destruct (wire w) as [|r rest] eqn:Hw.
    + rewrite (delete_one_refused _ _ _ Hname Hw). simpl. by rewrite app_nil_r.
    + rewrite (delete_one_answered _ _ _ _ _ Hname Hw), IH. simpl.
      rewrite <- !app_assoc. simpl. by rewrite <- outcome_step.
Qed.

(** The whole purge phase after a listing answered 200 with named
    label objects. *)
Lemma purge_run (r : response) (rest : list response) (labels : list dict)
    (names : list value) (w : world) :
  wire w = r :: rest → status_code r = 200 → decoded r = Some labels →
  named labels names →
  purge w =
  (if decide (length labels ≤ length rest)%nat
   then inr () else inl ConnectionError,
   World (keyboard w) (drop (length labels) rest)
     (sent w ++ listing :: map deletion (take (S (length rest)) names))
     (console w ++ zip_with delete_report names rest)).
Proof.
  intros Hw Hr Hd Hn. rewrite (purge_listed _ _ _ _ Hw Hr Hd).
  rewrite (delete_each_run _ _ Hn). simpl. by rewrite <- app_assoc.
Qed.

Lemma purge_answered (r : response) (rest : list response)
    (labels : list dict) (names : list value) (w : world) :
  wire w = r :: rest → status_code r = 200 → decoded r = Some labels →
  named labels names → (length labels ≤ length rest)%nat →
  purge w =
  (inr (),
   World (keyboard w) (drop (length labels) rest)
     (sent w ++ listing :: map deletion names)
     (console w ++ zip_with delete_report names rest)).
Proof.
  intros Hw Hr Hd Hn Hlen. rewrite (purge_run _ _ _ _ _ Hw Hr Hd Hn).
  rewrite take_ge by (rewrite (named_length _ _ Hn); lia). by case_decide.
Qed.

(** *** What each phase may emit *)

Lemma purge_emits :
  emits (λ rq, method rq = GET ∨ method rq = DELETE) is_line purge.
Proof.
  unfold purge, delete_existing_labels, requests_get, requests_delete.
  repeat emits_step; try (apply emits_print; by eexists);
    apply emits_send; simpl; auto.
Qed.

Lemma seed_emits (labels : list dict) :
  emits (λ rq, method rq = POST) is_line (seed labels).
Proof.
  unfold seed, create_labels, requests_post.
  repeat emits_step; try (apply emits_print; by eexists);
    apply emits_send; simpl; auto.
Qed.
End Phases.

(** ** The catalog *)

Lemma labels_to_create_named : named labels_to_create catalog_names.
Proof. unfold named, labels_to_create, catalog_names. repeat constructor. Qed.

Lemma labels_to_create_length : length labels_to_create = 17%nat.
Proof. reflexivity. Qed.

(** ** Worlds used as examples *)

(** ** The seed phase issues one request per catalog entry *)

(** Answered 201 throughout, the seed phase sends 17 create requests,
    not 16. *)
Lemma C1_seventeen_create_requests :
  let w := World [] (replicate 20 created) [] [] in
  let w' := (create_labels "https://api.github.com" "octocat" "hello-world"
               octocat_headers labels_to_create w).2 in
  length (sent w') = 17%nat ∧ length (sent w') ≠ 16%nat ∧
  method <$> sent w' = replicate 17 POST.
Proof.
  vm_compute. split_and!; [reflexivity | discriminate | reflexivity].
Qed.

(** C1, amended: the catalog has 17 entries (not 16). When the transport
    answers every request, the seed phase issues exactly one create
    request per catalog entry, in catalog order, each a POST to the
    labels endpoint whose JSON body is the entry itself, and the body
    has exactly the fields name, color and description. *)
Theorem C1_one_create_request_per_entry
    (api_url repo_owner repo_name : string) (headers : gmap string string)
    (w : world) :
  (length labels_to_create ≤ length (wire w))%nat →
  let w' := (create_labels api_url repo_owner repo_name headers
               labels_to_create w).2 in
  sent w' =
    sent w ++
    ((λ label,
        Request POST
          (api_url +:+ "/repos/" +:+ repo_owner +:+ "/" +:+ repo_name +:+ "/labels")
          headers (Some label)) <$> labels_to_create)
  ∧ length labels_to_create = 17%nat
  ∧ Forall (λ label : dict,
              dom label = ({[ "name"; "color"; "description" ]} : gset string))
      labels_to_create.
Proof.
  intros Hwire w'. split_and!.
  - subst w'.
    by rewrite (seed_answered _ _ _ _ _ _ _ labels_to_create_named Hwire).
  - reflexivity.
  - unfold labels_to_create. repeat constructor.
Qed.

Lemma C1_one_create_request_per_entry_witness :
  let w := World [] (replicate 17 created) [] [] in
  (length labels_to_create ≤ length (wire w))%nat ∧
  length (sent (create_labels "https://api.github.com" "octocat" "hello-world"
                  octocat_headers labels_to_create w).2) = 17%nat.
Proof.
  intros w. split; [vm_compute; lia|].
  destruct (C1_one_create_request_per_entry "https://api.github.com" "octocat"
              "hello-world" octocat_headers w) as (Hsent & _ & _); [vm_compute; lia|].
  rewrite Hsent, length_app, length_fmap. reflexivity.
Defined.

(** ** The catalog itself *)

(** The catalog does not have 16 entries. *)
Lemma C8_catalog_has_seventeen_entries :
  length labels_to_create = 17%nat ∧ length labels_to_create ≠ 16%nat.
Proof. split; [reflexivity | discriminate]. Qed.

(** C8, amended: the catalog is a static list of 17 entries (not 16),
    each a dict with exactly the fields name, color and description,
    all strings; every color is a string of six hexadecimal digits and
    the names are pairwise distinct. *)
Theorem C8_catalog_well_formed :
  length labels_to_create = 17%nat
  ∧ Forall (λ label : dict,
      ∃ name color description : string,
        label = {[ "name" := VStr name; "color" := VStr color;
                   "description" := VStr description ]}
        ∧ hex_color color)
      labels_to_create
  ∧ NoDup ((λ label : dict, label !! "name") <$> labels_to_create).
Proof.
  split_and!.
  - reflexivity.
  - unfold labels_to_create.
    repeat constructor;
      (do 3 eexists; split; [reflexivity | split; [reflexivity | repeat constructor]]).
  - apply (bool_decide_unpack _). vm_compute. reflexivity.
Qed.

(** ** List and string facts used below *)

Lemma lookup_after_zip_with {A B C : Type} (f : A → B → C) (pre : list C)
    (xs : list A) (ys : list B) (i : nat) (x : A) (y : B) :
  xs !! i = Some x → ys !! i = Some y →
  (pre ++ zip_with f xs ys) !! (length pre + i)%nat = Some (f x y).
Proof.
  intros Hx Hy. rewrite lookup_app_r by lia.
  replace (length pre + i - length pre)%nat with i by lia.
  by rewrite lookup_zip_with, Hx, Hy.
Qed.

Lemma lookup_after_map_take {A B : Type} (f : A → B) (pre : list B)
    (xs : list A) (n i : nat) (x : A) :
  xs !! i = Some x → (i < n)%nat →
  (pre ++ map f (take n xs)) !! (length pre + i)%nat = Some (f x).
Proof.
  intros Hx Hi. rewrite lookup_app_r by lia.
  replace (length pre + i - length pre)%nat with i by lia.
  change (map f (take n xs)) with (f <$> take n xs).
  by rewrite list_lookup_fmap, lookup_take_lt, Hx.
Qed.

Lemma string_app_assoc (s t u : string) : (s +:+ t) +:+ u = s +:+ t +:+ u.
Proof.
  induction s as [|c s IH]; [reflexivity|].
  change (String c ((s +:+ t) +:+ u) = String c (s +:+ t +:+ u)). by rewrite IH.
Qed.

(** The URL of a delete request is the labels endpoint, a slash and the
    name. *)
Lemma delete_request_url (api_url repo_owner repo_name : string)
    (headers : gmap string string) (name : value) :
  delete_request api_url repo_owner repo_name headers name =
  Request DELETE
    (url (listing_request api_url repo_owner repo_name headers) +:+ "/" +:+ str name)
    headers None.
Proof.
  unfold delete_request, listing_request. cbn [url]. f_equal.
  by rewrite !string_app_assoc.
Qed.

(** ** The text of a response body

    [repr] loses nothing: the body is read back from its text. *)

Lemma unrepr_body_byte (quote c : byte) (s : string) :
  quote = quote1 ∨ quote = quote2 →
  unrepr_body quote (repr_byte quote c +:+ s) = cons c <$> unrepr_body quote s.
Proof. intros [-> | ->]; destruct c; reflexivity. Qed.

Lemma unrepr_body_repr (quote : byte) (b : bytes) :
  quote = quote1 ∨ quote = quote2 →
  unrepr_body quote (foldr (λ c rest, repr_byte quote c +:+ rest) (char quote) b)
  = Some b.
Proof.
  intros Hq. induction b as [|c b IH]; simpl.
  - by destruct Hq as [-> | ->].
  - by rewrite (unrepr_body_byte _ _ _ Hq), IH.
Qed.

Lemma unrepr_repr (b : bytes) : unrepr (repr b) = Some b.
Proof.
  unfold repr.
  destruct (has_byte quote1 b && negb (has_byte quote2 b));
    (etrans; [|apply unrepr_body_repr]); auto.
Qed.

Lemma repr_inj (b1 b2 : bytes) : repr b1 = repr b2 → b1 = b2.
Proof.
  intros H. apply (f_equal unrepr) in H. rewrite !unrepr_repr in H. congruence.
Qed.

(** ** A failed listing aborts the purge *)

(** C2: if the listing call does not return a success status (the
    script takes 200 and nothing else as success; this also covers a
    listing call that gets no response at all), the purge phase issues
    the listing request and nothing else: zero delete requests. *)
Theorem C2_failed_listing_no_delete
    (api_url repo_owner repo_name : string) (headers : gmap string string)
    (w : world) :
  (∀ r, head (wire w) = Some r → status_code r ≠ 200) →
  let w' := (delete_existing_labels api_url repo_owner repo_name headers w).2 in
  sent w' =
    sent w ++
    [Request GET
       (api_url +:+ "/repos/" +:+ repo_owner +:+ "/" +:+ repo_name +:+ "/labels")
       headers None]
  ∧ filter (λ rq, method rq = DELETE) (sent w')
    = filter (λ rq, method rq = DELETE) (sent w).
Proof.
  intros Hfail w'.
  assert (sent w' =
          sent w ++ [listing_request api_url repo_owner repo_name headers]) as Hs.
  { subst w'. destruct (wire w) as [|r rest] eqn:Hw.
    - by rewrite (purge_refused _ _ _ _ _ Hw).
    - by rewrite (purge_not_listed _ _ _ _ _ _ _ Hw (Hfail r eq_refl)). }
  split; [exact Hs|]. rewrite Hs, filter_app.
  rewrite filter_cons_False by (simpl; discriminate).
  by rewrite filter_nil, app_nil_r.
Qed.

Lemma C2_failed_listing_no_delete_witness :
  let w := World [] (not_found :: replicate 17 created) [] [] in
  (∀ r, head (wire w) = Some r → status_code r ≠ 200) ∧
  filter (λ rq, method rq = DELETE)
    (sent (delete_existing_labels "https://api.github.com" "octocat"
             "hello-world" octocat_headers w).2) = [].
Proof.
  intros w.
  assert (∀ r, head (wire w) = Some r → status_code r ≠ 200) as Hfail.
  { intros r [= <-]. simpl. lia. }
  split; [exact Hfail|].
  destruct (C2_failed_listing_no_delete "https://api.github.com" "octocat"
              "hello-world" octocat_headers w Hfail) as [_ Hnone].
  exact Hnone.
Defined.

(** C10: the purge proceeds only when the listing response status is
    exactly 200. For any other status, other 2xx codes such as 206
    included, [delete_existing_labels] returns normally having sent the
    listing request only (no delete request) and printed nothing: the
    console is left as it was. *)
Theorem C10_only_200_proceeds
    (api_url repo_owner repo_name : string) (headers : gmap string string)
    (w : world) (r : response) (rest : list response) :
  wire w = r :: rest → status_code r ≠ 200 →
  delete_existing_labels api_url repo_owner repo_name headers w =
  (inr (),
   World (keyboard w) rest
     (sent w ++
      [Request GET
         (api_url +:+ "/repos/" +:+ repo_owner +:+ "/" +:+ repo_name +:+ "/labels")
         headers None])
     (console w)).
Proof. apply purge_not_listed. Qed.

Lemma C10_only_200_proceeds_witness :
  let w := World [] (partial_content :: replicate 17 created) [] [Line "before"] in
  status_code partial_content = 206 ∧
  console (delete_existing_labels "https://api.github.com" "octocat"
             "hello-world" octocat_headers w).2 = [Line "before"].
Proof.
  intros w. split; [reflexivity|].
  rewrite (C10_only_200_proceeds "https://api.github.com" "octocat" "hello-world"
             octocat_headers w partial_content (replicate 17 created));
    [reflexivity | reflexivity | simpl; lia].
Defined.

(** ** Deleting the listed labels *)

Lemma listed_named : named [bug_object; wontfix_object] [VStr "bug"; VStr "wontfix"].
Proof. repeat constructor. Qed.

(** C4: after a listing answered 200, and as long as the transport
    answers, the purge phase issues exactly one delete request per
    label object of the listing, in the order of the listing, and the
    URL of each is the labels endpoint followed by a slash and the
    label's name. *)
Theorem C4_one_delete_per_listed_label
    (api_url repo_owner repo_name : string) (headers : gmap string string)
    (w : world) (r : response) (rest : list response)
    (labels : list dict) (names : list value) :
  wire w = r :: rest → status_code r = 200 → decoded r = Some labels →
  named labels names → (length labels ≤ length rest)%nat →
  let endpoint :=
    api_url +:+ "/repos/" +:+ repo_owner +:+ "/" +:+ repo_name +:+ "/labels" in
  let run := delete_existing_labels api_url repo_owner repo_name headers w in
  run.1 = inr ()
  ∧ sent run.2 =
      sent w ++
      Request GET endpoint headers None ::
      ((λ name, Request DELETE (endpoint +:+ "/" +:+ str name) headers None)
         <$> names).
Proof.
  intros Hw Hr Hd Hn Hlen endpoint run. subst run.
  rewrite (purge_answered _ _ _ _ _ _ _ _ _ Hw Hr Hd Hn Hlen). split; [done|].
  cbn [snd sent]. do 2 f_equal. apply list_eq; intros i.
  change (map ?f ?l) with (f <$> l). rewrite !list_lookup_fmap.
  destruct (names !! i) as [name|]; [|done]. simpl. f_equal.
  apply delete_request_url.
Qed.

Lemma C4_one_delete_per_listed_label_witness :
  let w := World [] [listed; deleted; forbidden] [] [] in
  url <$> sent (delete_existing_labels "https://api.github.com" "octocat"
                  "hello-world" octocat_headers w).2 =
  ["https://api.github.com/repos/octocat/hello-world/labels";
   "https://api.github.com/repos/octocat/hello-world/labels/bug";
   "https://api.github.com/repos/octocat/hello-world/labels/wontfix"].
Proof.
  intros w.
  destruct (C4_one_delete_per_listed_label "https://api.github.com" "octocat"
              "hello-world" octocat_headers w listed [deleted; forbidden]
              [bug_object; wontfix_object] [VStr "bug"; VStr "wontfix"])
    as [_ Hsent];
    [reflexivity | reflexivity | reflexivity | exact listed_named | simpl; lia |].
  rewrite Hsent. reflexivity.
Defined.

(** C5: the i-th delete request of the purge phase is the one for the
    i-th listed label; when its response has status 204 the line printed
    for it reports the label as deleted, and for any other status the
    line reports the failure and carries the response body, written as
    Python writes a bytes object (from which the body is read back, see
    [unrepr_repr]). *)
Theorem C5_delete_outcome
    (api_url repo_owner repo_name : string) (headers : gmap string string)
    (w : world) (r : response) (rest : list response)
    (labels : list dict) (names : list value)
    (i : nat) (name : value) (delete_response : response) :
  wire w = r :: rest → status_code r = 200 → decoded r = Some labels →
  named labels names →
  names !! i = Some name → rest !! i = Some delete_response →
  let w' := (delete_existing_labels api_url repo_owner repo_name headers w).2 in
  sent w' !! (length (sent w) + S i)%nat
    = Some (delete_request api_url repo_owner repo_name headers name)
  ∧ (status_code delete_response = 204 →
     console w' !! (length (console w) + i)%nat
       = Some (Line ("Successfully deleted label: " +:+ str name)))
  ∧ (status_code delete_response ≠ 204 →
     console w' !! (length (console w) + i)%nat
       = Some (Line ("Failed to delete label: " +:+ str name +:+ " - "
                       +:+ repr (content delete_response)))).
Proof.
  intros Hw Hr Hd Hn Hname Hresp w'. subst w'.
  rewrite (purge_run _ _ _ _ _ _ _ _ _ Hw Hr Hd Hn). cbn [snd sent console].
  apply lookup_lt_Some in Hresp as Hlt.
  assert ((console w ++ zip_with delete_report names rest)
            !! (length (console w) + i)%nat
          = Some (delete_report name delete_response)) as Hline
    by by apply lookup_after_zip_with.
  split_and!.
  - rewrite lookup_app_r by lia.
    replace (length (sent w) + S i - length (sent w))%nat with (S i) by lia.
    simpl. change (map ?f ?l) with (f <$> l).
    rewrite list_lookup_fmap, lookup_take_lt by lia. by rewrite Hname.
  - intros H204. rewrite Hline. unfold delete_report. by case_decide.
  - intros H204. rewrite Hline. unfold delete_report. by case_decide.
Qed.

Lemma C5_delete_outcome_witness :
  let w := World [] [listed; deleted; forbidden] [] [] in
  console (delete_existing_labels "https://api.github.com" "octocat"
             "hello-world" octocat_headers w).2 !! 1%nat =
  Some (Line "Failed to delete label: wontfix - b'Forbidden'").
Proof.
  intros w.
  destruct (C5_delete_outcome "https://api.github.com" "octocat" "hello-world"
              octocat_headers w listed [deleted; forbidden]
              [bug_object; wontfix_object] [VStr "bug"; VStr "wontfix"]
              1%nat (VStr "wontfix") forbidden)
    as (_ & _ & Hfailed);
    [reflexivity | reflexivity | reflexivity | exact listed_named
    | reflexivity | reflexivity |].
  apply Hfailed. simpl. lia.
Defined.

(** ** Creating the catalog *)

(** C6: the i-th create request of the seed phase posts the i-th label;
    when its response has status 201 the line printed for it reports
    the label as created, and for any other status the line reports the
    failure and carries the response body, written as Python writes a
    bytes object (from which the body is read back, see [unrepr_repr]). *)
Theorem C6_create_outcome
    (api_url repo_owner repo_name : string) (headers : gmap string string)
    (w : world) (labels : list dict) (names : list value)
    (i : nat) (label : dict) (name : value) (response : response) :
  named labels names →
  labels !! i = Some label → names !! i = Some name →
  wire w !! i = Some response →
  let w' := (create_labels api_url repo_owner repo_name headers labels w).2 in
  sent w' !! (length (sent w) + i)%nat
    = Some (Request POST
              (api_url +:+ "/repos/" +:+ repo_owner +:+ "/" +:+ repo_name
                 +:+ "/labels")
              headers (Some label))
  ∧ (status_code response = 201 →
     console w' !! (length (console w) + i)%nat
       = Some (Line ("Successfully created label: " +:+ str name)))
  ∧ (status_code response ≠ 201 →
     console w' !! (length (console w) + i)%nat
       = Some (Line ("Failed to create label: " +:+ str name +:+ " - "
                       +:+ repr (content response)))).
Proof.
  intros Hn Hlabel Hname Hresp w'. subst w'.
  rewrite (seed_run _ _ _ _ _ _ Hn). cbn [snd sent console].
  apply lookup_lt_Some in Hresp as Hlt.
  assert ((console w ++ zip_with create_report names (wire w))
            !! (length (console w) + i)%nat
          = Some (create_report name response)) as Hline
    by by apply lookup_after_zip_with.
  split_and!.
  - by apply (lookup_after_map_take
                (create_request api_url repo_owner repo_name headers));
      [|lia].
  - intros H201. rewrite Hline. unfold create_report. by case_decide.
  - intros H201. rewrite Hline. unfold create_report. by case_decide.
Qed.

Lemma C6_create_outcome_witness :
  let w := World [] [created; unprocessable] [] [] in
  console (create_labels "https://api.github.com" "octocat" "hello-world"
             octocat_headers [bug_object; wontfix_object] w).2 !! 0%nat =
  Some (Line "Successfully created label: bug").
Proof.
  intros w.
  destruct (C6_create_outcome "https://api.github.com" "octocat" "hello-world"
              octocat_headers w [bug_object; wontfix_object]
              [VStr "bug"; VStr "wontfix"] 0%nat bug_object (VStr "bug") created)
    as (_ & Hcreated & _);
    [exact listed_named | reflexivity | reflexivity | reflexivity |].
  apply Hcreated. reflexivity.
Defined.

(** C7: creations are independent. When one create call of the seed
    phase fails (any status other than 201, for instance 422 for a
    duplicate name), the line for that label reports the failure with
    the response body, the phase still completes having attempted
    every catalog entry, and the line of every other label depends on
    its own response only: it reports success whenever that response
    is a 201. *)
Theorem C7_create_failure_is_local
    (api_url repo_owner repo_name : string) (headers : gmap string string)
    (w : world) (i : nat) (label : dict) (name : value) (failure : response) :
  (length labels_to_create ≤ length (wire w))%nat →
  labels_to_create !! i = Some label → label !! "name" = Some name →
  wire w !! i = Some failure → status_code failure ≠ 201 →
  let run := create_labels api_url repo_owner repo_name headers
               labels_to_create w in
  run.1 = inr ()
  ∧ sent run.2 =
      sent w ++
      (create_request api_url repo_owner repo_name headers <$> labels_to_create)
  ∧ length (console run.2) = (length (console w) + length labels_to_create)%nat
  ∧ console run.2 !! (length (console w) + i)%nat
      = Some (Line ("Failed to create label: " +:+ str name +:+ " - "
                      +:+ repr (content failure)))
  ∧ (∀ (j : nat) (other : dict) (other_name : value) (response : response),
       labels_to_create !! j = Some other → other !! "name" = Some other_name →
       wire w !! j = Some response → status_code response = 201 →
       console run.2 !! (length (console w) + j)%nat
         = Some (Line ("Successfully created label: " +:+ str other_name))).
Proof.
  intros Hlen Hlabel Hname Hresp Hfail run. subst run.
  pose proof labels_to_create_named as Hn.
  rewrite (seed_answered _ _ _ _ _ _ _ Hn Hlen). cbn [fst snd sent console].
  split_and!.
  - done.
  - done.
  - rewrite length_app, length_zip_with_l; [by rewrite (named_length _ _ Hn)|].
    rewrite (named_length _ _ Hn). lia.
  - destruct (named_lookup _ _ _ _ Hn Hlabel) as (name' & Hi & Hname').
    assert (name' = name) as -> by congruence.
    rewrite (lookup_after_zip_with _ _ _ _ _ _ _ Hi Hresp).
    unfold create_report. by case_decide.
  - intros j other other_name response Hother Honame Hjresp H201.
    destruct (named_lookup _ _ _ _ Hn Hother) as (name' & Hj & Hname').
    assert (name' = other_name) as -> by congruence.
    rewrite (lookup_after_zip_with _ _ _ _ _ _ _ Hj Hjresp).
    unfold create_report. by case_decide.
Qed.

Lemma C7_create_failure_is_local_witness :
  let w := World [] (replicate 3 created ++ unprocessable :: replicate 13 created)
             [] [] in
  let run := create_labels "https://api.github.com" "octocat" "hello-world"
               octocat_headers labels_to_create w in
  console run.2 !! 3%nat =
    Some (Line "Failed to create label: duplicate - b'Validation Failed: already_exists'")
  ∧ console run.2 !! 4%nat = Some (Line "Successfully created label: enhancement")
  ∧ length (console run.2) = 17%nat.
Proof.
  intros w run.
  destruct (C7_create_failure_is_local "https://api.github.com" "octocat"
               "hello-world" octocat_headers w 3%nat
               (default ∅ (labels_to_create !! 3%nat)) (VStr "duplicate")
               unprocessable)
    as (_ & _ & Hlen & Hfailed & Hothers);
    [vm_compute; lia | reflexivity | reflexivity | reflexivity | simpl; lia |].
  split_and!.
  - exact Hfailed.
  - by apply (Hothers 4%nat (default ∅ (labels_to_create !! 4%nat))
                (VStr "enhancement") created).
  - exact Hlen.
Defined.

(** ** The whole script *)

Lemma run_input_typed (prompt typed : string) (rest : list string) (w : world) :
  keyboard w = typed :: rest →
  input prompt w =
  (inr typed, World rest (wire w) (sent w) (console w ++ [Prompt prompt])).
Proof. intros Hk. unfold input. by rewrite Hk. Qed.

Lemma run_input_eof (prompt : string) (w : world) :
  keyboard w = [] →
  input prompt w =
  (inl EOFError, World [] (wire w) (sent w) (console w ++ [Prompt prompt])).
Proof. intros Hk. unfold input. by rewrite Hk. Qed.

(** Once the three answers are typed, the script is the purge phase
    followed by the seed phase. *)
Lemma main_prompted (repo_owner repo_name token : string) (more : list string)
    (w : world) :
  keyboard w = repo_owner :: repo_name :: token :: more →
  main w =
  (delete_existing_labels "https://api.github.com" repo_owner repo_name
     (script_headers token) ;;
   create_labels "https://api.github.com" repo_owner repo_name
     (script_headers token) labels_to_create)
    (World more (wire w) (sent w) (console w ++ prompts)).
Proof.
  intros Hk. unfold main, getpass.
  rewrite run_bind, (run_input_typed _ _ _ _ Hk).
  rewrite run_bind, (run_input_typed _ repo_name (token :: more)) by done.
  rewrite run_bind, (run_input_typed _ token more) by done.
  cbn [keyboard wire sent console]. by rewrite <- !app_assoc.
Qed.

(** Without three typed answers the script stops at a prompt, before
    any request. *)
Lemma main_eof (w : world) :
  (length (keyboard w) < 3)%nat →
  (main w).1 = inl EOFError ∧ sent (main w).2 = sent w.
Proof.
  intros Hlen. unfold main, getpass. rewrite run_bind.
  destruct (keyboard w) as [|repo_owner kb1] eqn:Hk.
  { by rewrite (run_input_eof _ _ Hk). }
  rewrite (run_input_typed _ _ _ _ Hk), run_bind.
  destruct kb1 as [|repo_name kb2].
  { by rewrite run_input_eof. }
  rewrite (run_input_typed _ repo_name kb2) by done. rewrite run_bind.
  destruct kb2 as [|token more]; [|simpl in Hlen; lia].
  by rewrite run_input_eof.
Qed.

Lemma emits_sequence {A B : Type} (P P' : request → Prop) (Q Q' : event → Prop)
    (m1 : io A) (m2 : io B) (w : world) :
  emits P Q m1 → emits P' Q' m2 →
  ∃ before after,
    sent ((m1 ;; m2) w).2 = sent w ++ before ++ after ∧
    Forall P before ∧ Forall P' after.
Proof.
  intros H1 H2. rewrite run_bind.
  destruct (H1 w) as (rqs & evs & Hs & _ & HP & _).
  destruct (m1 w) as [[e|a] w1]; simpl in *.
  - exists rqs, []. by rewrite app_nil_r.
  - destruct (H2 w1) as (rqs' & evs' & Hs' & _ & HP' & _).
    exists rqs, rqs'. by rewrite Hs', Hs, app_assoc.
Qed.

(** ** Purge first, then seed *)

(** C3: in every run of the script, every create request comes after
    every request of the purge phase (the listing and the deletes).
    When the listing is answered 200 and every delete is answered, the
    seed phase starts once all deletes are done. When the listing call
    fails (any status other than 200, such as 404), no delete request
    is issued and the script goes on to the seed phase all the same. *)
Theorem C3_purge_then_seed (w : world) :
  (∃ before after,
     sent (main w).2 = sent w ++ before ++ after ∧
     Forall (λ rq, method rq = GET ∨ method rq = DELETE) before ∧
     Forall (λ rq, method rq = POST) after)
  ∧ (∀ (repo_owner repo_name token : string) (more : list string)
       (r : response) (rest : list response)
       (labels : list dict) (names : list value),
       keyboard w = repo_owner :: repo_name :: token :: more →
       wire w = r :: rest → status_code r = 200 → decoded r = Some labels →
       named labels names → (length labels ≤ length rest)%nat →
       main w =
       create_labels "https://api.github.com" repo_owner repo_name
         (script_headers token) labels_to_create
         (World more (drop (length labels) rest)
            (sent w ++
             listing_request "https://api.github.com" repo_owner repo_name
               (script_headers token) ::
             (delete_request "https://api.github.com" repo_owner repo_name
                (script_headers token) <$> names))
            (console w ++ prompts ++ zip_with delete_report names rest)))
  ∧ (∀ (repo_owner repo_name token : string) (more : list string)
       (r : response) (rest : list response),
       keyboard w = repo_owner :: repo_name :: token :: more →
       wire w = r :: rest → status_code r ≠ 200 →
       main w =
       create_labels "https://api.github.com" repo_owner repo_name
         (script_headers token) labels_to_create
         (World more rest
            (sent w ++
             [listing_request "https://api.github.com" repo_owner repo_name
                (script_headers token)])
            (console w ++ prompts))).
Proof.
  split_and!.
  - destruct (decide (length (keyboard w) < 3)%nat) as [Hshort|Hlong].
    + destruct (main_eof w Hshort) as [_ Hsent].
      exists [], []. by rewrite Hsent, !app_nil_r.
    + destruct (keyboard w) as [|repo_owner [|repo_name [|token more]]] eqn:Hk;
        try (simpl in Hlong; lia).
      rewrite (main_prompted _ _ _ _ _ Hk).
      eapply (emits_sequence _ _ _ _ _ _
                (World more (wire w) (sent w) (console w ++ prompts)));
        [apply purge_emits | apply seed_emits].
  - intros repo_owner repo_name token more r rest labels names Hk Hw Hr Hd Hn Hlen.
    rewrite (main_prompted _ _ _ _ _ Hk), run_bind.
    rewrite (purge_answered _ _ _ _ r rest labels names) by done.
    cbn [keyboard wire sent console]. by rewrite <- app_assoc.
  - intros repo_owner repo_name token more r rest Hk Hw Hr.
    rewrite (main_prompted _ _ _ _ _ Hk), run_bind.
    by rewrite (purge_not_listed _ _ _ _ r rest) by done.
Qed.

Lemma C3_purge_then_seed_witness :
  let w := World ["octocat"; "hello-world"; "s3cr3t"]
             (not_found :: replicate 17 created) [] [] in
  (main w).1 = inr ()
  ∧ method <$> sent (main w).2 = GET :: replicate 17 POST.
Proof.
  intros w.
  destruct (C3_purge_then_seed w) as (_ & _ & Hfailed).
  rewrite (Hfailed "octocat" "hello-world" "s3cr3t" [] not_found
             (replicate 17 created)); [|reflexivity|reflexivity|simpl; lia].
  rewrite (seed_answered _ _ _ _ _ catalog_names);
    [|exact labels_to_create_named|vm_compute; lia].
  split; reflexivity.
Defined.

(** The end-to-end scenario: a listing of two labels, both deleted,
    then the catalog created. *)
Example main_end_to_end :
  let w := World ["octocat"; "hello-world"; "s3cr3t"]
             (listed :: deleted :: deleted :: replicate 17 created) [] [] in
  (main w).1 = inr ()
  ∧ (λ rq, (method rq, url rq)) <$> sent (main w).2 =
      [(GET, "https://api.github.com/repos/octocat/hello-world/labels");
       (DELETE, "https://api.github.com/repos/octocat/hello-world/labels/bug");
       (DELETE, "https://api.github.com/repos/octocat/hello-world/labels/wontfix")]
      ++ replicate 17 (POST, "https://api.github.com/repos/octocat/hello-world/labels")
  ∧ take 5 (console (main w).2) =
      prompts ++ [Line "Successfully deleted label: bug";
                  Line "Successfully deleted label: wontfix"].
Proof. vm_compute. done. Qed.

(** ** The token does not reach the console *)

Lemma agree_ret {A : Type} (a : A) : agree (mret a) (mret a).
Proof. by intros w1 w2 H. Qed.

Lemma agree_raise {A : Type} (e : exn) : agree (@raise A e) (raise e).
Proof. by intros w1 w2 H. Qed.

Lemma agree_bind {A B : Type} (m1 m2 : io A) (f1 f2 : A → io B) :
  agree m1 m2 → (∀ a, agree (f1 a) (f2 a)) → agree (m1 ≫= f1) (m2 ≫= f2).
Proof.
  intros Hm Hf w1 w2 H. rewrite !run_bind.
  destruct (Hm w1 w2 H) as [Ho Hw].
  destruct (m1 w1) as [[e1|a1] w1'], (m2 w2) as [[e2|a2] w2'];
    simpl in *; simplify_eq; [done|].
  by apply Hf.
Qed.

Lemma agree_print (line : string) : agree (print line) (print line).
Proof.
  intros w1 w2 (Hk & Hw & Hc). unfold print, same_io. simpl.
  by rewrite Hk, Hw, Hc.
Qed.

Lemma agree_input (prompt : string) : agree (input prompt) (input prompt).
Proof.
  intros w1 w2 (Hk & Hw & Hc). unfold input, same_io. rewrite Hk.
  destruct (keyboard w2); simpl; by rewrite Hw, Hc.
Qed.

(** The transport answers by position on the wire, whatever is asked. *)
Lemma agree_send (rq1 rq2 : request) : agree (send rq1) (send rq2).
Proof.
  intros w1 w2 (Hk & Hw & Hc). unfold send, same_io. rewrite Hw.
  destruct (wire w2); simpl; by rewrite Hk, Hc.
Qed.

Lemma agree_getitem (d : dict) (key : string) :
  agree (getitem d key) (getitem d key).
Proof. unfold getitem. destruct (d !! key); [apply agree_ret | apply agree_raise]. Qed.

Lemma agree_response_json (r : response) :
  agree (response_json r) (response_json r).
Proof.
  unfold response_json. destruct (decoded r); [apply agree_ret | apply agree_raise].
Qed.

Lemma agree_for_each {A : Type} (xs : list A) (body1 body2 : A → io unit) :
  (∀ x, agree (body1 x) (body2 x)) →
  agree (for_each xs body1) (for_each xs body2).
Proof.
  intros Hbody. induction xs as [|x xs IH]; simpl.
  - apply agree_ret.
  - apply agree_bind; [apply Hbody | intros _; apply IH].
Qed.

Create HintDb agree discriminated.
#[local] Hint Resolve agree_ret agree_raise agree_print agree_input agree_send
  agree_getitem agree_response_json : agree.

Ltac agree_step :=
  first
    [ apply agree_bind; [|intros ?]
    | apply agree_for_each; intros ?
    | match goal with
      | |- agree (if ?c then _ else _) (if ?c then _ else _) => destruct c
      end
    | solve [auto with agree] ].

(** Neither phase lets the URL or the headers of its requests influence
    what it reads or prints. *)
Lemma purge_agree (api_url1 api_url2 owner1 owner2 repo1 repo2 : string)
    (headers1 headers2 : gmap string string) :
  agree (delete_existing_labels api_url1 owner1 repo1 headers1)
        (delete_existing_labels api_url2 owner2 repo2 headers2).
Proof.
  unfold delete_existing_labels, requests_get, requests_delete.
  repeat agree_step.
Qed.

Lemma seed_agree (api_url1 api_url2 owner1 owner2 repo1 repo2 : string)
    (headers1 headers2 : gmap string string) (labels : list dict) :
  agree (create_labels api_url1 owner1 repo1 headers1 labels)
        (create_labels api_url2 owner2 repo2 headers2 labels).
Proof.
  unfold create_labels, requests_post.
  repeat agree_step.
Qed.

(** A printed line that contains the token: the body of a failed create
    is printed as it came, and here it holds the token. *)
Lemma C9_token_in_printed_line :
  let token := "s3cr3t" in
  let w := World ["octocat"; "hello-world"; token]
             (not_found :: replicate 17 bad_credentials) [] [] in
  ∃ before after : string,
    Line (before +:+ token +:+ after) ∈ console (main w).2.
Proof.
  exists "Failed to create label: bug - b'Bad credentials: token ", "'".
  apply list_elem_of_lookup. exists 3%nat. vm_compute. reflexivity.
Qed.

(** C9, amended: the printed output does not depend on the token. Two
    runs that differ only in the token typed and receive identical HTTP
    responses leave identical consoles, and end the same way. *)
Theorem C9_output_independent_of_token
    (repo_owner repo_name token1 token2 : string) (more : list string)
    (responses : list response) (sent0 : list request) (console0 : list event) :
  let run1 := main (World (repo_owner :: repo_name :: token1 :: more)
                      responses sent0 console0) in
  let run2 := main (World (repo_owner :: repo_name :: token2 :: more)
                      responses sent0 console0) in
  console run1.2 = console run2.2 ∧ run1.1 = run2.1.
Proof.
  intros run1 run2. subst run1 run2.
  rewrite (main_prompted repo_owner repo_name token1 more) by done.
  rewrite (main_prompted repo_owner repo_name token2 more) by done.
  cbn [keyboard wire sent console].
  set (w := World more responses sent0 (console0 ++ prompts)).
  destruct
    (agree_bind _ _ _ _
       (purge_agree "https://api.github.com" "https://api.github.com"
          repo_owner repo_owner repo_name repo_name
          (script_headers token1) (script_headers token2))
       (λ _, seed_agree "https://api.github.com" "https://api.github.com"
               repo_owner repo_owner repo_name repo_name
               (script_headers token1) (script_headers token2) labels_to_create)
       w w)
    as (Hout & _ & _ & Hcon); [done|].
  by split.
Qed.

(** ** Beyond the two phases' happy paths

    What the script does when a loop is cut short: by the transport, by
    a label object without a name, by a listing that does not decode,
    or at the prompts. *)

Lemma run_for_each_app {A : Type} (xs ys : list A) (body : A → io unit)
    (w : world) :
  for_each (xs ++ ys) body w =
  match for_each xs body w with
  | (inr _, w') => for_each ys body w'
  | (inl e, w') => (inl e, w')
  end.
Proof.
  revert w. induction xs as [|x xs IH]; intros w; [done|].
  change ((x :: xs) ++ ys) with (x :: (xs ++ ys)). rewrite !run_for_each_cons.
  destruct (body x w) as [[e|[]] w1]; [done|]. apply IH.
Qed.

Lemma seed_one_unnamed (api_url repo_owner repo_name : string)
    (headers : gmap string string) (label : dict) (r : response)
    (rest : list response) (w : world) :
  label !! "name" = None → wire w = r :: rest →
  create_labels api_url repo_owner repo_name headers [label] w =
  (inl (KeyError "name"),
   World (keyboard w) rest
     (sent w ++ [create_request api_url repo_owner repo_name headers label])
     (console w)).
Proof.
  intros Hname Hw. unfold create_labels.
  rewrite run_for_each_cons, run_bind.
  unfold requests_post. rewrite (run_send_answered _ _ _ _ Hw).
  destruct (decide (status_code r = 201));
    rewrite run_bind; unfold getitem; by rewrite Hname.
Qed.

(** X1: the seed phase has no handling of transport errors. When the
    transport answers fewer requests than there are labels, the phase
    raises at the first unanswered request: that request was made, one
    line was printed per answer, and the labels after it are never
    attempted. *)
Theorem X1_seed_stops_when_transport_fails
    (api_url repo_owner repo_name : string) (headers : gmap string string)
    (labels : list dict) (names : list value) (w : world) :
  named labels names → (length (wire w) < length labels)%nat →
  create_labels api_url repo_owner repo_name headers labels w =
  (inl ConnectionError,
   World (keyboard w) []
     (sent w ++
      (create_request api_url repo_owner repo_name headers
         <$> take (S (length (wire w))) labels))
     (console w ++ zip_with create_report names (wire w))).
Proof.
  intros Hn Hlen. rewrite (seed_run _ _ _ _ _ _ Hn).
  rewrite drop_ge by lia. case_decide; [lia|done].
Qed.

Lemma X1_seed_stops_when_transport_fails_witness :
  let w := World [] [created; unprocessable] [] [] in
  let run := create_labels "https://api.github.com" "octocat" "hello-world"
               octocat_headers labels_to_create w in
  run.1 = inl ConnectionError
  ∧ length (sent run.2) = 3%nat ∧ length (console run.2) = 2%nat.
Proof.
  intros w run. subst run.
  rewrite (X1_seed_stops_when_transport_fails "https://api.github.com" "octocat"
             "hello-world" octocat_headers labels_to_create catalog_names w);
    [|exact labels_to_create_named|vm_compute; lia].
  vm_compute. done.
Defined.



(** X3: a listed label object without a name stops the purge before
    any request is made for it. After a listing answered 200, with the
    deletes of the objects before it answered, the purge raises
    [KeyError] for the key ["name"]: the objects before it have had
    their delete request and their line, the objects after it are left
    in the repository. *)
Theorem X3_purge_label_without_name
    (api_url repo_owner repo_name : string) (headers : gmap string string)
    (r : response) (rest : list response)
    (before after : list dict) (nameless : dict) (names : list value)
    (w : world) :
  wire w = r :: rest → status_code r = 200 →
  decoded r = Some (before ++ nameless :: after) →
  named before names → nameless !! "name" = None →
  (length before ≤ length rest)%nat →
  delete_existing_labels api_url repo_owner repo_name headers w =
  (inl (KeyError "name"),
   World (keyboard w) (drop (length before) rest)
     (sent w ++
      listing_request api_url repo_owner repo_name headers ::
      (delete_request api_url repo_owner repo_name headers <$> names))
     (console w ++ zip_with delete_report names rest)).
Proof.
  intros Hw Hr Hd Hn Hnameless Hlen.
  rewrite (purge_listed _ _ _ _ _ _ _ _ Hw Hr Hd).
  unfold delete_each. rewrite run_for_each_app.
  fold (delete_each api_url repo_owner repo_name headers before).
  rewrite (delete_each_run _ _ _ _ _ _ Hn). cbn [keyboard wire sent console].
  case_decide; [|lia].
  fold (delete_each api_url repo_owner repo_name headers (nameless :: after)).
  rewrite delete_each_cons, (delete_one_unnamed _ _ _ _ _ _ Hnameless).
  rewrite take_ge by (rewrite (named_length _ _ Hn); lia).
  by rewrite <- app_assoc.
Qed.

Lemma X3_purge_label_without_name_witness :
  let w := World [] [listed_nameless; deleted; deleted; deleted] [] [] in
  let run := delete_existing_labels "https://api.github.com" "octocat"
               "hello-world" octocat_headers w in
  run.1 = inl (KeyError "name")
  ∧ url <$> sent run.2 =
      ["https://api.github.com/repos/octocat/hello-world/labels";
       "https://api.github.com/repos/octocat/hello-world/labels/bug"]
  ∧ console run.2 = [Line "Successfully deleted label: bug"].
Proof.
  intros w run. subst run.
  rewrite (X3_purge_label_without_name "https://api.github.com" "octocat"
             "hello-world" octocat_headers listed_nameless
             [deleted; deleted; deleted] [bug_object] [wontfix_object]
             nameless_object [VStr "bug"] w);
    [|reflexivity|reflexivity|reflexivity|by repeat constructor|reflexivity
     |simpl; lia].
  vm_compute. done.
Defined.

(** X4: in the seed phase a label without a name is posted before it
    is missed. The create request for it is made and answered, then the
    phase raises [KeyError] for the key ["name"] while building its
    line: nothing is printed for it, and the labels after it are never
    attempted. *)
Theorem X4_seed_label_without_name
    (api_url repo_owner repo_name : string) (headers : gmap string string)
    (before after : list dict) (nameless : dict) (names : list value)
    (w : world) :
  named before names → nameless !! "name" = None →
  (length before < length (wire w))%nat →
  create_labels api_url repo_owner repo_name headers
    (before ++ nameless :: after) w =
  (inl (KeyError "name"),
   World (keyboard w) (drop (S (length before)) (wire w))
     (sent w ++
      (create_request api_url repo_owner repo_name headers
         <$> before ++ [nameless]))
     (console w ++ zip_with create_report names (wire w))).
Proof.
  intros Hn Hnameless Hlen. unfold create_labels. rewrite run_for_each_app.
  fold (create_labels api_url repo_owner repo_name headers before).
  rewrite (seed_answered _ _ _ _ _ _ _ Hn) by lia.
  fold (create_labels api_url repo_owner repo_name headers (nameless :: after)).
  rewrite seed_cons.
  destruct (lookup_lt_is_Some_2 (wire w) (length before) Hlen) as [r Hresp].
  rewrite (seed_one_unnamed _ _ _ _ _ r (drop (S (length before)) (wire w)))
    by (done || by apply drop_S).
  cbn [keyboard wire sent console].
  by rewrite fmap_app, <- app_assoc.
Qed.

Lemma X4_seed_label_without_name_witness :
  let w := World [] [created; created; created] [] [] in
  let run := create_labels "https://api.github.com" "octocat" "hello-world"
               octocat_headers [bug_object; nameless_object; wontfix_object] w in
  run.1 = inl (KeyError "name")
  ∧ (λ rq, json rq ≫= (.!! "id")) <$> sent run.2 =
      [Some (VInt 208045946); Some (VInt 208045948)]
  ∧ console run.2 = [Line "Successfully created label: bug"].
Proof.
  intros w run. subst run.
  change [bug_object; nameless_object; wontfix_object]
    with ([bug_object] ++ nameless_object :: [wontfix_object]).
  rewrite (X4_seed_label_without_name "https://api.github.com" "octocat"
             "hello-world" octocat_headers [bug_object] [wontfix_object]
             nameless_object [VStr "bug"] w);
    [|by repeat constructor|reflexivity|simpl; lia].
  vm_compute. done.
Defined.



(** X6: when fewer than three answers are typed, the script raises
    [EOFError] at the first prompt left unanswered, having shown the
    prompts up to that one and made no request; the transport is not
    touched. *)
Theorem X6_missing_answer_no_request (w : world) :
  (length (keyboard w) < 3)%nat →
  main w =
  (inl EOFError,
   World [] (wire w) (sent w)
     (console w ++ take (S (length (keyboard w))) prompts)).
Proof.
  intros Hlen. unfold main, getpass. rewrite run_bind.
  destruct (keyboard w) as [|repo_owner kb1] eqn:Hk.
  { by rewrite (run_input_eof _ _ Hk). }
  rewrite (run_input_typed _ _ _ _ Hk), run_bind.
  destruct kb1 as [|repo_name kb2].
  { rewrite run_input_eof by done. cbn [keyboard wire sent console].
    by rewrite <- app_assoc. }
  rewrite (run_input_typed _ repo_name kb2) by done. rewrite run_bind.
  destruct kb2 as [|token more]; [|simpl in Hlen; lia].
  rewrite run_input_eof by done. cbn [keyboard wire sent console].
  by rewrite <- !app_assoc.
Qed.

Lemma X6_missing_answer_no_request_witness :
  let w := World ["octocat"; "hello-world"] [listed; deleted] [] [] in
  (main w).1 = inl EOFError ∧ sent (main w).2 = []
  ∧ wire (main w).2 = [listed; deleted] ∧ console (main w).2 = prompts.
Proof.
  intros w. rewrite (X6_missing_answer_no_request w); [|simpl; lia].
  vm_compute. done.
Defined.

(** X7: a listing answered 200 with no label object, an empty
    repository, is purged in silence: the listing request is the only
    one made, nothing is printed and the purge returns normally. *)
Theorem X7_empty_listing_is_silent
    (api_url repo_owner repo_name : string) (headers : gmap string string)
    (r : response) (rest : list response) (w : world) :
  wire w = r :: rest → status_code r = 200 → decoded r = Some [] →
  delete_existing_labels api_url repo_owner repo_name headers w =
  (inr (),
   World (keyboard w) rest
     (sent w ++ [listing_request api_url repo_owner repo_name headers])
     (console w)).
Proof.
  intros Hw Hr Hd.
  rewrite (purge_listed _ _ _ _ _ _ _ _ Hw Hr Hd).
  unfold delete_each. by rewrite run_for_each_nil.
Qed.

Lemma X7_empty_listing_is_silent_witness :
  let w := World [] (listed_nothing :: replicate 17 created) [] [Line "before"] in
  let run := delete_existing_labels "https://api.github.com" "octocat"
               "hello-world" octocat_headers w in
  run.1 = inr () ∧ method <$> sent run.2 = [GET]
  ∧ console run.2 = [Line "before"].
Proof.
  intros w run. subst run.
  rewrite (X7_empty_listing_is_silent "https://api.github.com" "octocat"
             "hello-world" octocat_headers listed_nothing (replicate 17 created) w);
    [|reflexivity|reflexivity|reflexivity].
  vm_compute. done.
Defined.

(** X8: deletions are independent, as creations are. When one delete of
    the purge fails (any status other than 204), the line for that
    label reports the failure with the response body, the purge still
    returns normally having requested the deletion of every listed
    label, and the line of every other label reports success whenever
    its own response is a 204. *)
Theorem X8_delete_failure_is_local
    (api_url repo_owner repo_name : string) (headers : gmap string string)
    (r : response) (rest : list response)
    (labels : list dict) (names : list value) (w : world)
    (i : nat) (name : value) (failure : response) :
  wire w = r :: rest → status_code r = 200 → decoded r = Some labels →
  named labels names → (length labels ≤ length rest)%nat →
  names !! i = Some name → rest !! i = Some failure →
  status_code failure ≠ 204 →
  let run := delete_existing_labels api_url repo_owner repo_name headers w in
  run.1 = inr ()
  ∧ sent run.2 =
      sent w ++
      listing_request api_url repo_owner repo_name headers ::
      (delete_request api_url repo_owner repo_name headers <$> names)
  ∧ length (console run.2) = (length (console w) + length labels)%nat
  ∧ console run.2 !! (length (console w) + i)%nat
      = Some (Line ("Failed to delete label: " +:+ str name +:+ " - "
                      +:+ repr (content failure)))
  ∧ (∀ (j : nat) (other : value) (response : response),
       names !! j = Some other → rest !! j = Some response →
       status_code response = 204 →
       console run.2 !! (length (console w) + j)%nat
         = Some (Line ("Successfully deleted label: " +:+ str other))).
Proof.
  intros Hw Hr Hd Hn Hlen Hname Hresp Hfail run. subst run.
  rewrite (purge_answered _ _ _ _ _ _ _ _ _ Hw Hr Hd Hn Hlen).
  cbn [fst snd sent console]. split_and!.
  - done.
  - done.
  - rewrite length_app, length_zip_with_l; rewrite (named_length _ _ Hn); lia.
  - rewrite (lookup_after_zip_with _ _ _ _ _ _ _ Hname Hresp).
    unfold delete_report. by case_decide.
  - intros j other response Hother Hjresp H204.
    rewrite (lookup_after_zip_with _ _ _ _ _ _ _ Hother Hjresp).
    unfold delete_report. by case_decide.
Qed.

Lemma X8_delete_failure_is_local_witness :
  let w := World [] [listed; forbidden; deleted] [] [] in
  let run := delete_existing_labels "https://api.github.com" "octocat"
               "hello-world" octocat_headers w in
  run.1 = inr ()
  ∧ console run.2 !! 0%nat = Some (Line "Failed to delete label: bug - b'Forbidden'")
  ∧ console run.2 !! 1%nat = Some (Line "Successfully deleted label: wontfix").
Proof.
  intros w run.
  destruct (X8_delete_failure_is_local "https://api.github.com" "octocat"
              "hello-world" octocat_headers listed [forbidden; deleted]
              [bug_object; wontfix_object] [VStr "bug"; VStr "wontfix"] w
              0%nat (VStr "bug") forbidden)
    as (Hok & _ & _ & Hfailed & Hothers);
    [reflexivity | reflexivity | reflexivity | exact listed_named | simpl; lia
    | reflexivity | reflexivity | simpl; lia |].
  split_and!.
  - exact Hok.
  - exact Hfailed.
  - by apply (Hothers 1%nat (VStr "wontfix") deleted).
Defined.

(** X9: the whole script when nothing goes wrong. With the three
    answers typed, the listing answered 200 with named label objects
    and every delete and create answered, the script returns normally;
    it has made the listing request, one delete per listed label and
    one create per catalog entry, in that order, and printed one line
    per delete and per create after the prompts; the responses are
    consumed in the order of the requests. *)
Theorem X9_complete_run
    (repo_owner repo_name token : string) (more : list string)
    (r : response) (rest : list response)
    (labels : list dict) (names : list value) (w : world) :
  keyboard w = repo_owner :: repo_name :: token :: more →
  wire w = r :: rest → status_code r = 200 → decoded r = Some labels →
  named labels names →
  (length labels + length labels_to_create ≤ length rest)%nat →
  main w =
  (inr (),
   World more (drop (length labels + length labels_to_create) rest)
     (sent w ++
      listing_request "https://api.github.com" repo_owner repo_name
        (script_headers token) ::
      (delete_request "https://api.github.com" repo_owner repo_name
         (script_headers token) <$> names) ++
      (create_request "https://api.github.com" repo_owner repo_name
         (script_headers token) <$> labels_to_create))
     (console w ++ prompts ++ zip_with delete_report names rest ++
      zip_with create_report catalog_names (drop (length labels) rest))).
Proof.
  intros Hk Hw Hr Hd Hn Hlen.
  rewrite (main_prompted _ _ _ _ _ Hk), run_bind.
  rewrite (purge_answered _ _ _ _ r rest labels names) by (done || lia).
  rewrite (seed_answered _ _ _ _ _ catalog_names)
    by (exact labels_to_create_named || (cbn [wire]; rewrite length_drop; lia)).
  cbn [keyboard wire sent console].
  rewrite drop_drop, <- !app_assoc. done.
Qed.

Lemma X9_complete_run_witness :
  let w := World ["octocat"; "hello-world"; "s3cr3t"]
             (listed :: deleted :: deleted :: replicate 17 created) [] [] in
  (main w).1 = inr () ∧ wire (main w).2 = []
  ∧ length (sent (main w).2) = 20%nat ∧ length (console (main w).2) = 22%nat.
Proof.
  intros w.
  rewrite (X9_complete_run "octocat" "hello-world" "s3cr3t" [] listed
             (deleted :: deleted :: replicate 17 created)
             [bug_object; wontfix_object] [VStr "bug"; VStr "wontfix"] w);
    [|reflexivity|reflexivity|reflexivity|reflexivity|exact listed_named
     |vm_compute; lia].
  vm_compute. done.
Defined.

(** ** What the script ever asks of the server *)

Lemma emits_for_each_in {A : Type} (P : request → Prop) (Q : event → Prop)
    (xs : list A) (body : A → io unit) :
  (∀ x, x ∈ xs → emits P Q (body x)) → emits P Q (for_each xs body).
Proof.
  induction xs as [|x xs IH]; intros Hbody; simpl.
  - apply emits_ret.
  - apply emits_bind; [apply Hbody; by left|].
    intros _. apply IH. intros y Hy. apply Hbody. by right.
Qed.

Lemma delete_each_sends (api_url repo_owner repo_name : string)
    (headers : gmap string string) (labels : list dict) :
  emits (λ rq, ∃ name, rq = delete_request api_url repo_owner repo_name headers name)
    (λ _, True) (delete_each api_url repo_owner repo_name headers labels).
Proof.
  unfold delete_each. apply emits_for_each. intros label.
  apply emits_bind; [apply emits_getitem|]. intros name.
  apply emits_bind; [apply emits_send; by exists name|]. intros delete_response.
  case_decide; (apply emits_bind; [apply emits_getitem|]); intros ?;
    by apply emits_print.
Qed.

Lemma purge_sends (api_url repo_owner repo_name : string)
    (headers : gmap string string) (w : world) :
  ∃ tail,
    sent (delete_existing_labels api_url repo_owner repo_name headers w).2 =
      sent w ++ listing_request api_url repo_owner repo_name headers :: tail ∧
    Forall (λ rq, ∃ name,
              rq = delete_request api_url repo_owner repo_name headers name)
      tail.
Proof.
  destruct (wire w) as [|r rest] eqn:Hw.
  { exists []. by rewrite (purge_refused _ _ _ _ _ Hw). }
  destruct (decide (status_code r = 200)) as [Hr|Hr];
    [|exists []; by rewrite (purge_not_listed _ _ _ _ _ _ _ Hw Hr)].
  destruct (decoded r) as [labels|] eqn:Hd;
    [|exists []; by rewrite (purge_undecoded _ _ _ _ _ _ _ Hw Hr Hd)].
  rewrite (purge_listed _ _ _ _ _ _ _ _ Hw Hr Hd).
  destruct (delete_each_sends api_url repo_owner repo_name headers labels
              (World (keyboard w) rest
                 (sent w ++ [listing_request api_url repo_owner repo_name headers])
                 (console w)))
    as (rqs & _ & Hs & _ & HP & _).
  exists rqs. rewrite Hs. cbn [sent]. by rewrite <- app_assoc.
Qed.

Lemma seed_sends (api_url repo_owner repo_name : string)
    (headers : gmap string string) (labels : list dict) :
  emits (λ rq, ∃ label, label ∈ labels ∧
                 rq = create_request api_url repo_owner repo_name headers label)
    (λ _, True) (create_labels api_url repo_owner repo_name headers labels).
Proof.
  unfold create_labels. apply emits_for_each_in. intros label Hin.
  apply emits_bind; [apply emits_send; by exists label|]. intros response.
  case_decide; (apply emits_bind; [apply emits_getitem|]); intros ?;
    by apply emits_print.
Qed.

(** X10: whatever the server answers, once the three answers are typed
    the first request of the script is the listing of the labels of the
    repository typed (owner first, then name), and every later request
    is a delete under that labels endpoint or the creation of a catalog
    entry at it. Every request carries the same two headers: the token
    typed, as [token <token>], and the version of the API; the script
    asks nothing else of the server. *)
Theorem X10_requests_of_the_script
    (repo_owner repo_name token : string) (more : list string) (w : world) :
  keyboard w = repo_owner :: repo_name :: token :: more →
  ∃ tail,
    sent (main w).2 =
      sent w ++
      Request GET
        ("https://api.github.com/repos/" +:+ repo_owner +:+ "/" +:+ repo_name
           +:+ "/labels")
        (script_headers token) None :: tail
    ∧ Forall (script_request "https://api.github.com" repo_owner repo_name
                (script_headers token) labels_to_create) tail
    ∧ Forall (λ rq, headers rq =
                      {[ "Authorization" := "token " +:+ token;
                         "Accept" := "application/vnd.github.v3+json" ]}) tail.
Proof.
  intros Hk. rewrite (main_prompted _ _ _ _ _ Hk), run_bind.
  set (w1 := World more (wire w) (sent w) (console w ++ prompts)).
  destruct (purge_sends "https://api.github.com" repo_owner repo_name
              (script_headers token) w1) as (deletes & Hs1 & Hdel).
  assert (∀ rqs,
            Forall (script_request "https://api.github.com" repo_owner repo_name
                      (script_headers token) labels_to_create) rqs →
            Forall (λ rq, headers rq = script_headers token) rqs) as Hheaders.
  { intros rqs Hrqs. eapply Forall_impl; [exact Hrqs|].
    by intros rq [[name ->] | (label & _ & ->)]. }
  assert (Forall (script_request "https://api.github.com" repo_owner repo_name
                    (script_headers token) labels_to_create) deletes) as Hdel'.
  { eapply Forall_impl; [exact Hdel|]. intros rq Hrq. by left. }
  destruct (delete_existing_labels _ _ _ _ w1) as [[e|[]] w2]; cbn [snd] in *.
  - exists deletes. split_and!; [exact Hs1 | exact Hdel' | by apply Hheaders].
  - destruct (seed_sends "https://api.github.com" repo_owner repo_name
                (script_headers token) labels_to_create w2)
      as (creates & _ & Hs2 & _ & Hcre & _).
    assert (Forall (script_request "https://api.github.com" repo_owner repo_name
                      (script_headers token) labels_to_create)
              (deletes ++ creates)) as Hall.
    { apply Forall_app. split; [exact Hdel'|].
      eapply Forall_impl; [exact Hcre|]. intros rq Hrq. by right. }
    exists (deletes ++ creates). split_and!; [|exact Hall|by apply Hheaders].
    rewrite Hs2, Hs1. cbn [sent]. by rewrite <- app_assoc.
Qed.

Lemma X10_requests_of_the_script_witness :
  let w := World ["octocat"; "hello-world"; "s3cr3t"] [listed; forbidden] [] [] in
  sent (main w).2 !! 0%nat =
    Some (Request GET "https://api.github.com/repos/octocat/hello-world/labels"
            octocat_headers None)
  ∧ Forall (λ rq, headers rq = octocat_headers) (sent (main w).2).
Proof.
  intros w.
  destruct (X10_requests_of_the_script "octocat" "hello-world" "s3cr3t" [] w)
    as (tail & Hsent & _ & Hheaders); [reflexivity|].
  rewrite Hsent. split; [reflexivity|].
  apply Forall_cons. split; [reflexivity | exact Hheaders].
Defined.

(** ** What a failure line says of the response body *)

Lemma string_app_inj_l (s t1 t2 : string) : s +:+ t1 = s +:+ t2 → t1 = t2.
Proof.
  induction s as [|c s IH]; [done|].
  change (String c (s +:+ t1) = String c (s +:+ t2) → t1 = t2).
  intros [= H]. by apply IH.
Qed.

Lemma repr_byte_plain (c : byte) : plain_byte c → repr_byte quote1 c = char c.
Proof.
  intros (Hlow & Hhigh & Hquote & Hback).
  destruct c; try reflexivity; exfalso;
    first [ by apply Hquote | by apply Hback | by apply Hlow
          | by vm_compute in Hhigh ].
Qed.

Lemma has_byte_plain (b : bytes) : Forall plain_byte b → has_byte quote1 b = false.
Proof.
  induction 1 as [|c b (_ & _ & Hquote & _) _ IH]; [done|].
  unfold has_byte in *. simpl. rewrite IH, orb_false_r.
  destruct (Byte.eqb quote1 c) eqn:Heq; [|done].
  apply Byte.byte_dec_bl in Heq. congruence.
Qed.

Lemma repr_plain (b : bytes) :
  Forall plain_byte b → repr b = "b'" +:+ string_of_list_byte b +:+ "'".
Proof.
  intros Hb. unfold repr. rewrite (has_byte_plain _ Hb). simpl andb. cbv iota.
  change ("b'" +:+ string_of_list_byte b +:+ "'")
    with ("b" +:+ char quote1 +:+ string_of_list_byte b +:+ char quote1).
  do 2 f_equal. induction Hb as [|c b Hc _ IH]; [done|].
  simpl. rewrite (repr_byte_plain _ Hc), IH. reflexivity.
Qed.

(** X11: a failure line determines the response body. For the same
    label, two failed deletes (or two failed creates) print the same
    line only if their response bodies are the same, byte for byte:
    nothing of the body is lost or merged in printing. *)
Theorem X11_failure_line_determines_body
    (name : value) (r1 r2 : response) :
  (status_code r1 ≠ 204 → status_code r2 ≠ 204 →
   delete_report name r1 = delete_report name r2 → content r1 = content r2)
  ∧ (status_code r1 ≠ 201 → status_code r2 ≠ 201 →
     create_report name r1 = create_report name r2 → content r1 = content r2).
Proof.
  split; intros H1 H2; unfold delete_report, create_report;
    repeat case_decide; try done; intros Hline; injection Hline as Hline;
    apply repr_inj; do 3 apply string_app_inj_l in Hline; exact Hline.
Qed.

Lemma X11_failure_line_determines_body_witness :
  let r := Response 500 (list_byte_of_string "Forbidden") None in
  delete_report (VStr "bug") forbidden = delete_report (VStr "bug") r
  ∧ content forbidden = content r.
Proof.
  intros r. split; [reflexivity|].
  destruct (X11_failure_line_determines_body (VStr "bug") forbidden r)
    as [Hdelete _].
  apply Hdelete; [simpl; lia | simpl; lia | reflexivity].
Defined.

(** X12: a response body made of printable ASCII without single quote
    or backslash is printed as it is: the failure line ends with the
    body between [b'] and ['], with no escape. *)
Theorem X12_plain_body_printed_verbatim (name : value) (r : response) :
  Forall plain_byte (content r) →
  (status_code r ≠ 204 →
   delete_report name r =
   Line ("Failed to delete label: " +:+ str name +:+ " - b'"
           +:+ string_of_list_byte (content r) +:+ "'"))
  ∧ (status_code r ≠ 201 →
     create_report name r =
     Line ("Failed to create label: " +:+ str name +:+ " - b'"
             +:+ string_of_list_byte (content r) +:+ "'")).
Proof.
  intros Hplain. split; intros Hstatus; unfold delete_report, create_report;
    case_decide; try done; by rewrite (repr_plain _ Hplain).
Qed.

Lemma X12_plain_body_printed_verbatim_witness :
  Forall plain_byte (content unprocessable)
  ∧ create_report (VStr "bug") unprocessable =
      Line "Failed to create label: bug - b'Validation Failed: already_exists'".
Proof.
  assert (Forall plain_byte (content unprocessable)) as Hplain.
  { repeat (apply Forall_cons; split;
              [split_and!; [by vm_compute | by vm_compute | done | done]|]).
    apply Forall_nil_2. }
  split; [exact Hplain|].
  destruct (X12_plain_body_printed_verbatim (VStr "bug") unprocessable Hplain)
    as [_ Hcreate].
  rewrite Hcreate; [reflexivity | simpl; lia].
Defined.

(** ** Composing and comparing runs *)

(** X13: seeding a list of labels is seeding a first part of it, then
    the rest from the world the first part leaves, unless the first
    part raised, in which case the rest is not attempted. *)
Theorem X13_seed_in_two_parts
    (api_url repo_owner repo_name : string) (headers : gmap string string)
    (first rest : list dict) (w : world) :
  create_labels api_url repo_owner repo_name headers (first ++ rest) w =
  match create_labels api_url repo_owner repo_name headers first w with
  | (inr _, w') => create_labels api_url repo_owner repo_name headers rest w'
  | (inl e, w') => (inl e, w')
  end.
Proof. unfold create_labels. apply run_for_each_app. Qed.

(** X14: what the script prints and how it ends depend on the
    responses alone. Two runs that receive identical HTTP responses
    leave identical consoles and end the same way, even when the owner,
    the repository and the token typed all differ and whatever requests
    were made before. *)
Theorem X14_output_depends_on_responses_only
    (owner1 owner2 repo1 repo2 token1 token2 : string) (more : list string)
    (responses : list response) (sent1 sent2 : list request)
    (console0 : list event) :
  let run1 := main (World (owner1 :: repo1 :: token1 :: more)
                      responses sent1 console0) in
  let run2 := main (World (owner2 :: repo2 :: token2 :: more)
                      responses sent2 console0) in
  console run1.2 = console run2.2 ∧ run1.1 = run2.1
  ∧ wire run1.2 = wire run2.2.
Proof.
  intros run1 run2. subst run1 run2.
  rewrite (main_prompted owner1 repo1 token1 more) by done.
  rewrite (main_prompted owner2 repo2 token2 more) by done.
  cbn [keyboard wire sent console].
  destruct
    (agree_bind _ _ _ _
       (purge_agree "https://api.github.com" "https://api.github.com"
          owner1 owner2 repo1 repo2
          (script_headers token1) (script_headers token2))
       (λ _, seed_agree "https://api.github.com" "https://api.github.com"
               owner1 owner2 repo1 repo2
               (script_headers token1) (script_headers token2) labels_to_create)
       (World more responses sent1 (console0 ++ prompts))
       (World more responses sent2 (console0 ++ prompts)))
    as (Hout & _ & Hwire & Hcon); [done|].
  by split_and!.
Qed.

(** ** No raw byte of a response reaches the terminal *)

Lemma printable_app (s t : string) : printable s → printable t → printable (s +:+ t).
Proof.
  unfold printable. intros Hs Ht. induction s as [|c s IH]; [done|].
  change (list_ascii_of_string (String c s +:+ t))
    with (c :: list_ascii_of_string (s +:+ t)).
  change (list_ascii_of_string (String c s))
    with (c :: list_ascii_of_string s) in Hs.
  apply Forall_cons in Hs as [Hc Hs]. apply Forall_cons. split; [done|].
  by apply IH.
Qed.

Lemma repr_byte_printable (quote c : byte) :
  quote = quote1 ∨ quote = quote2 → printable (repr_byte quote c).
Proof.
  intros [-> | ->]; destruct c;
    apply (bool_decide_unpack _); vm_compute; exact I.
Qed.

(** X15: whatever bytes a response body holds, the text printed for it
    is printable ASCII: control characters, line breaks and bytes
    beyond 7 bits are written as escapes, so a body cannot break the
    line it is printed on or drive the terminal. *)
Theorem X15_body_text_is_printable (b : bytes) : printable (repr b).
Proof.
  unfold repr.
  set (quote := if has_byte quote1 b && negb (has_byte quote2 b)
                then quote2 else quote1).
  assert (quote = quote1 ∨ quote = quote2) as Hq
    by (subst quote; destruct (_ && _); auto).
  assert (printable (char quote)) as Hchar
    by (destruct Hq as [-> | ->]; by apply (bool_decide_unpack _)).
  apply printable_app; [by apply (bool_decide_unpack _)|].
  apply printable_app; [exact Hchar|].
  clearbody quote. induction b as [|c b IH]; [exact Hchar|].
  simpl. apply printable_app; [by apply repr_byte_printable | exact IH].
Qed.
